(** * bible-nav: the unified gesture handler

    A shallow embedding of [modules/gestureHandler.js] (class
    [GestureHandler] and [createGestureHandler]) together with the
    thresholds of [modules/constants.js], and the properties of the
    recognizer that follow from the code.

    Modelling choices:
    - coordinates and millisecond timestamps are integers ([Z]);
    - the wall clock ([new Date().getTime()], [Date.now()]) is an input of
      the operation that reads it;
    - the host's timer queue ([setTimeout]/[clearTimeout]) is part of the
      world, as is a chronological log of the callback invocations;
    - a callback is a function from its argument to a completion: it
      either returns a JavaScript value or throws.  Callbacks do not call
      back into the recognizer (those wired in [eventHandlers.js] only
      touch the navigation state). *)

From Stdlib Require Import Ascii String.
From Stdlib Require Import ZArith List Bool Lia.
Import ListNotations.
Local Open Scope Z_scope.

(** ** constants.js *)

Module Constants.
Definition SWIPE_THRESHOLD : Z := 20.
Definition DRAG_THRESHOLD : Z := 50.
Definition MOVEMENT_DETECTION_THRESHOLD : Z := 5.
Definition TAP_DELAY : Z := 300.
End Constants.
Import Constants.

(** ** JavaScript values and completions *)

(** The values a callback may hand back, as far as the listeners look at
    them: [result && result.preventDefault].  An object is represented by
    the truthiness of its [preventDefault] property. *)
Inductive JsValue : Type :=
| JUndefined
| JNull
| JBool (b : bool)
| JNumber (n : Z)
| JObject (preventDefault : bool).

(** [result && result.preventDefault], as a boolean. *)
Definition wantsPreventDefault (result : JsValue) : bool :=
  match result with
  | JObject p => p
  | _ => false
  end.

Inductive Completion (A : Type) : Type :=
| Normal (a : A)
| Thrown.
Arguments Normal {A} a.
Arguments Thrown {A}.

(** ** Data model *)

(** Timer handles returned by [setTimeout] are positive integers, hence
    always truthy. *)
Definition TimerId : Type := positive.

Record GestureState : Type := mkState {
  startX : Z;
  startY : Z;
  lastX : Z;
  accumulatedDistance : Z;
  isDragging : bool;
  hasActuallyDragged : bool;
  lastTapTime : Z;
  tapTimeout : option TimerId
}.

Definition createInitialState : GestureState :=
  {| startX := 0; startY := 0; lastX := 0; accumulatedDistance := 0;
     isDragging := false; hasActuallyDragged := false;
     lastTapTime := 0; tapTimeout := None |}.

Definition set_startX (v : Z) (s : GestureState) : GestureState :=
  mkState v (startY s) (lastX s) (accumulatedDistance s) (isDragging s)
          (hasActuallyDragged s) (lastTapTime s) (tapTimeout s).
Definition set_startY (v : Z) (s : GestureState) : GestureState :=
  mkState (startX s) v (lastX s) (accumulatedDistance s) (isDragging s)
          (hasActuallyDragged s) (lastTapTime s) (tapTimeout s).
Definition set_lastX (v : Z) (s : GestureState) : GestureState :=
  mkState (startX s) (startY s) v (accumulatedDistance s) (isDragging s)
          (hasActuallyDragged s) (lastTapTime s) (tapTimeout s).
Definition set_accumulatedDistance (v : Z) (s : GestureState) : GestureState :=
  mkState (startX s) (startY s) (lastX s) v (isDragging s)
          (hasActuallyDragged s) (lastTapTime s) (tapTimeout s).
Definition set_isDragging (v : bool) (s : GestureState) : GestureState :=
  mkState (startX s) (startY s) (lastX s) (accumulatedDistance s) v
          (hasActuallyDragged s) (lastTapTime s) (tapTimeout s).
Definition set_hasActuallyDragged (v : bool) (s : GestureState) : GestureState :=
  mkState (startX s) (startY s) (lastX s) (accumulatedDistance s) (isDragging s)
          v (lastTapTime s) (tapTimeout s).
Definition set_lastTapTime (v : Z) (s : GestureState) : GestureState :=
  mkState (startX s) (startY s) (lastX s) (accumulatedDistance s) (isDragging s)
          (hasActuallyDragged s) v (tapTimeout s).
Definition set_tapTimeout (v : option TimerId) (s : GestureState) : GestureState :=
  mkState (startX s) (startY s) (lastX s) (accumulatedDistance s) (isDragging s)
          (hasActuallyDragged s) (lastTapTime s) v.

(** The four callback slots of [this.handlers]; [None] is [null]. *)
Record Handlers : Type := mkHandlers {
  onSwipe : option (Z -> Completion JsValue);
  onDrag : option (Z -> Completion JsValue);
  onTap : option (Z -> Completion JsValue);
  onDoubleTap : option (unit -> Completion JsValue)
}.

Definition noHandlers : Handlers :=
  {| onSwipe := None; onDrag := None; onTap := None; onDoubleTap := None |}.

(** A slot of the object handed to [setHandlers]: the key may be absent,
    or present with [null]/[undefined] ([None]) or with a function. *)
Inductive Slot (A : Type) : Type :=
| Absent
| Present (v : option A).
Arguments Absent {A}.
Arguments Present {A} v.

Record HandlersPatch : Type := mkPatch {
  patchSwipe : Slot (Z -> Completion JsValue);
  patchDrag : Slot (Z -> Completion JsValue);
  patchTap : Slot (Z -> Completion JsValue);
  patchDoubleTap : Slot (unit -> Completion JsValue)
}.

(** [{ ...this.handlers, ...handlers }]: a key of the new object replaces
    the old slot whatever its value, an explicit [null] included; a key
    the new object leaves out keeps the old slot. *)
Definition mergeSlot {A} (old : option A) (new : Slot A) : option A :=
  match new with
  | Absent => old
  | Present v => v
  end.

Definition mergeHandlers (old : Handlers) (new : HandlersPatch) : Handlers :=
  {| onSwipe := mergeSlot (onSwipe old) (patchSwipe new);
     onDrag := mergeSlot (onDrag old) (patchDrag new);
     onTap := mergeSlot (onTap old) (patchTap new);
     onDoubleTap := mergeSlot (onDoubleTap old) (patchDoubleTap new) |}.

(** A [callbacks] object given by what its four slots read.  Whether a
    slot that reads [null] has its key or not makes no difference where
    this is used, on the all-[null] handlers of a new [GestureHandler]. *)
Definition patchOf (h : Handlers) : HandlersPatch :=
  {| patchSwipe := Present (onSwipe h);
     patchDrag := Present (onDrag h);
     patchTap := Present (onTap h);
     patchDoubleTap := Present (onDoubleTap h) |}.

(** One callback invocation, as seen from outside. *)
Inductive Call : Type :=
| CallSwipe (direction : Z)
| CallDrag (direction : Z)
| CallTap (x : Z)
| CallDoubleTap.

(** A scheduled single-tap confirmation: the closure passed to
    [setTimeout] captures [coords.clientX]. *)
Record Timer : Type := mkTimer {
  timerId : TimerId;
  due : Z;
  tapClientX : Z
}.

(** The [GestureHandler] instance ([state], [lastTouchTime], [handlers])
    and the part of the host it acts on. *)
Record World : Type := mkWorld {
  state : GestureState;
  lastTouchTime : Z;
  handlers : Handlers;
  timers : list Timer;
  nextTimerId : TimerId;
  calls : list Call
}.

(** Events: [screenX]/[screenY]/[clientX] stand for those of
    [changedTouches[0]] on a touch event and for the event's own on a
    mouse event. *)
Inductive EventType : Type :=
| touchstart | touchmove | touchend
| mousedown | mousemove | mouseup | dblclick.

Record Event : Type := mkEvent {
  type : EventType;
  screenX : Z;
  screenY : Z;
  clientX : Z;
  target : nat
}.

Record Coords : Type := mkCoords { x : Z; y : Z; coordsClientX : Z }.

(** The return value of [handleEnd]: ['tap'], ['double-tap'], ['drag']. *)
Inductive Gesture : Type := GTap | GDoubleTap | GDrag.

(** ** A state and exception monad for the methods *)

Definition M (A : Type) : Type := World -> Completion A * World.

Definition ret {A} (a : A) : M A := fun w => (Normal a, w).

Definition bind {A B} (m : M A) (k : A -> M B) : M B :=
  fun w =>
    match m w with
    | (Normal a, w') => k a w'
    | (Thrown, w') => (Thrown, w')
    end.

Notation "x <- m ;; k" := (bind m (fun x => k))
  (at level 61, m at next level, right associativity).
Notation "m ;; k" := (bind m (fun _ => k))
  (at level 61, right associativity).

Definition withState (s : GestureState) (w : World) : World :=
  mkWorld s (lastTouchTime w) (handlers w) (timers w) (nextTimerId w) (calls w).

Definition withTimers (ts : list Timer) (w : World) : World :=
  mkWorld (state w) (lastTouchTime w) (handlers w) ts (nextTimerId w) (calls w).

Definition withCalls (cs : list Call) (w : World) : World :=
  mkWorld (state w) (lastTouchTime w) (handlers w) (timers w) (nextTimerId w) cs.

Definition getState : M GestureState := fun w => (Normal (state w), w).

Definition getHandlers : M Handlers := fun w => (Normal (handlers w), w).

Definition getLastTouchTime : M Z := fun w => (Normal (lastTouchTime w), w).

Definition modifyState (f : GestureState -> GestureState) : M unit :=
  fun w => (Normal tt, withState (f (state w)) w).

Definition setLastTouchTime (t : Z) : M unit :=
  fun w =>
    (Normal tt,
     mkWorld (state w) t (handlers w) (timers w) (nextTimerId w) (calls w)).

(** Calling a callback: the invocation is logged, then the callback's
    completion becomes the completion of the call. *)
Definition invoke (c : Call) (r : Completion JsValue) : M JsValue :=
  fun w => (r, withCalls (calls w ++ [c]) w).

(** [setTimeout(closure, delay)] at wall-clock time [now]. *)
Definition setTimeout (now delay tapX : Z) : M TimerId :=
  fun w =>
    (Normal (nextTimerId w),
     mkWorld (state w) (lastTouchTime w) (handlers w)
             (timers w ++ [mkTimer (nextTimerId w) (now + delay) tapX])
             (Pos.succ (nextTimerId w)) (calls w)).

Definition cancel (id : TimerId) (ts : list Timer) : list Timer :=
  filter (fun t => negb (Pos.eqb (timerId t) id)) ts.

Definition clearTimeout (id : TimerId) : M unit :=
  fun w => (Normal tt, withTimers (cancel id (timers w)) w).

(** ** class GestureHandler *)

(** [new GestureHandler()] on a host with no timers. *)
Definition newGestureHandler : World :=
  {| state := createInitialState; lastTouchTime := 0; handlers := noHandlers;
     timers := []; nextTimerId := 1%positive; calls := [] |}.

Definition reset : M unit :=
  s <- getState ;;
  match tapTimeout s with
  | Some id => clearTimeout id
  | None => ret tt
  end ;;
  modifyState (fun _ => createInitialState).

Definition setHandlers (hs : HandlersPatch) : M unit :=
  fun w =>
    (Normal tt,
     mkWorld (state w) (lastTouchTime w) (mergeHandlers (handlers w) hs)
             (timers w) (nextTimerId w) (calls w)).

Definition getEventCoordinates (event : Event) : Coords :=
  {| x := screenX event; y := screenY event; coordsClientX := clientX event |}.

Definition handleStart (event : Event) : M unit :=
  let coords := getEventCoordinates event in
  modifyState (set_startX (x coords)) ;;
  modifyState (set_startY (y coords)) ;;
  modifyState (set_lastX (x coords)) ;;
  modifyState (set_accumulatedDistance 0) ;;
  modifyState (set_isDragging true) ;;
  modifyState (set_hasActuallyDragged false).

Definition handleMove (event : Event) : M JsValue :=
  s <- getState ;;
  if negb (isDragging s) then ret JNull else
  let coords := getEventCoordinates event in
  let deltaX := x coords - startX s in
  let deltaY := y coords - startY s in
  (if (Z.abs deltaX >? MOVEMENT_DETECTION_THRESHOLD)
      || (Z.abs deltaY >? MOVEMENT_DETECTION_THRESHOLD)
   then modifyState (set_hasActuallyDragged true)
   else ret tt) ;;
  if Z.abs deltaX >? Z.abs deltaY then
    let movement := x coords - lastX s in
    modifyState (fun s => set_accumulatedDistance (accumulatedDistance s + movement) s) ;;
    s1 <- getState ;;
    if Z.abs (accumulatedDistance s1) >=? SWIPE_THRESHOLD then
      let direction := if accumulatedDistance s1 >? 0 then -1 else 1 in
      modifyState (set_accumulatedDistance 0) ;;
      modifyState (set_lastX (x coords)) ;;
      hs <- getHandlers ;;
      match onSwipe hs with
      | Some f => invoke (CallSwipe direction) (f direction)
      | None =>
          modifyState (set_lastX (x coords)) ;;
          ret (JObject true)
      end
    else
      modifyState (set_lastX (x coords)) ;;
      ret (JObject true)
  else ret JNull.

(** The closure scheduled by the single-tap path of [handleEnd]. *)
Definition tapTimerCallback (tapX : Z) : M unit :=
  hs <- getHandlers ;;
  match onTap hs with
  | Some f => invoke (CallTap tapX) (f tapX) ;; ret tt
  | None => ret tt
  end ;;
  modifyState (set_tapTimeout None).

(** [handleEnd(event)] when [new Date().getTime()] reads [now]. *)
Definition handleEnd (event : Event) (now : Z) : M (option Gesture) :=
  s <- getState ;;
  if negb (isDragging s) then ret None else
  let coords := getEventCoordinates event in
  let currentTime := now in
  let timeSinceLastTap := currentTime - lastTapTime s in
  hs <- getHandlers ;;
  if hasActuallyDragged s then
    let dragDistance := x coords - startX s in
    match Z.abs dragDistance >? DRAG_THRESHOLD, onDrag hs with
    | true, Some f =>
        let direction := if dragDistance >? 0 then -1 else 1 in
        invoke (CallDrag direction) (f direction) ;; ret tt
    | _, _ => ret tt
    end ;;
    reset ;;
    modifyState (set_lastTapTime currentTime) ;;
    ret (Some GDrag)
  else if (timeSinceLastTap <? TAP_DELAY) && (timeSinceLastTap >? 0) then
    match tapTimeout s with
    | Some id => clearTimeout id ;; modifyState (set_tapTimeout None)
    | None => ret tt
    end ;;
    match onDoubleTap hs with
    | Some f => invoke CallDoubleTap (f tt) ;; ret tt
    | None => ret tt
    end ;;
    reset ;;
    modifyState (set_lastTapTime currentTime) ;;
    ret (Some GDoubleTap)
  else
    match tapTimeout s with
    | Some id => clearTimeout id
    | None => ret tt
    end ;;
    id <- setTimeout now TAP_DELAY (coordsClientX coords) ;;
    modifyState (set_tapTimeout (Some id)) ;;
    modifyState (set_lastTapTime currentTime) ;;
    modifyState (set_isDragging false) ;;
    modifyState (set_accumulatedDistance 0) ;;
    ret (Some GTap).

(** ** The host's timer queue *)

Definition findTimer (id : TimerId) (ts : list Timer) : option Timer :=
  find (fun t => Pos.eqb (timerId t) id) ts.

(** The host runs the closure of timer [id] at wall-clock time [now]; it
    does so only if the timer is still scheduled and its delay has
    elapsed.  The timer leaves the queue before its closure runs. *)
Definition timerFires (id : TimerId) (now : Z) : M unit :=
  fun w =>
    match findTimer id (timers w) with
    | Some t =>
        if due t <=? now
        then (clearTimeout id ;; tapTimerCallback (tapClientX t)) w
        else (Normal tt, w)
    | None => (Normal tt, w)
    end.

(** ** Driving the methods *)

Inductive Op : Type :=
| OpStart (event : Event)
| OpMove (event : Event)
| OpEnd (event : Event) (now : Z)
| OpTimer (id : TimerId) (now : Z).

(** The world after one operation; an exception that escapes is the
    host's to report, and the world stays as the operation left it. *)
Definition runOp (w : World) (o : Op) : World :=
  match o with
  | OpStart e => snd (handleStart e w)
  | OpMove e => snd (handleMove e w)
  | OpEnd e now => snd (handleEnd e now w)
  | OpTimer id now => snd (timerFires id now w)
  end.

Definition runOps (w : World) (os : list Op) : World := fold_left runOp os w.

(** ** createGestureHandler *)

(** What the listeners close over: the [callbacks] object and the optional
    [shouldIgnoreEvent] predicate. *)
Record Surface : Type := mkSurface {
  callbacks : Handlers;
  shouldIgnoreEvent : option (Event -> bool)
}.

(** [shouldIgnoreEvent && shouldIgnoreEvent(e)] *)
Definition ignored (sf : Surface) (e : Event) : bool :=
  match shouldIgnoreEvent sf with
  | Some p => p e
  | None => false
  end.

Definition createGestureHandler (sf : Surface) : World :=
  snd (setHandlers (patchOf (callbacks sf)) newGestureHandler).

(** The listener registered for [type e], run while [Date.now()] reads
    [now].  The result tells whether [e.preventDefault()] was called. *)
Definition listener (sf : Surface) (e : Event) (now : Z) : M bool :=
  if ignored sf e then ret false else
  match type e with
  | touchstart => handleStart e ;; ret false
  | touchmove =>
      result <- handleMove e ;;
      ret (wantsPreventDefault result)
  | touchend =>
      handleEnd e now ;;
      setLastTouchTime now ;;
      ret false
  | mousedown =>
      t <- getLastTouchTime ;;
      if now - t <? 500 then ret false else
      handleStart e ;; ret true
  | mousemove => handleMove e ;; ret false
  | mouseup =>
      t <- getLastTouchTime ;;
      if now - t <? 500 then ret false else
      handleEnd e now ;; ret false
  | dblclick =>
      t <- getLastTouchTime ;;
      if now - t <? 500 then ret false else
      match onDoubleTap (callbacks sf) with
      | Some f => invoke CallDoubleTap (f tt) ;; ret tt
      | None => ret tt
      end ;;
      ret true
  end.

(** What the event loop delivers: a DOM event or an expired timer. *)
Inductive Input : Type :=
| Dom (e : Event) (now : Z)
| TimerDue (id : TimerId) (now : Z).

Definition deliver (sf : Surface) (w : World) (i : Input) : World :=
  match i with
  | Dom e now => snd (listener sf e now w)
  | TimerDue id now => snd (timerFires id now w)
  end.

Definition deliverAll (sf : Surface) (w : World) (inputs : list Input) : World :=
  fold_left (deliver sf) inputs w.

(** ** Invariant of the timer queue *)

(** At most one tap confirmation is scheduled, and it is the one
    [state.tapTimeout] names. *)
Definition pendingOK (w : World) : Prop :=
  match timers w with
  | [] => True
  | [t] => tapTimeout (state w) = Some (timerId t)
  | _ => False
  end.

Definition wf (w : World) : Prop :=
  pendingOK w /\
  Forall (fun t => (timerId t < nextTimerId w)%positive) (timers w).

(** ** Sample callbacks and events *)

(** The callbacks as [eventHandlers.js] wires them: arrow functions with a
    block body, which return [undefined]. *)
Definition appCallbacks : Handlers :=
  {| onSwipe := Some (fun _ => Normal JUndefined);
     onDrag := Some (fun _ => Normal JUndefined);
     onTap := Some (fun _ => Normal JUndefined);
     onDoubleTap := Some (fun _ => Normal JUndefined) |}.

Definition appSurface : Surface :=
  {| callbacks := appCallbacks; shouldIgnoreEvent := None |}.

Definition ev (ty : EventType) (px py : Z) : Event :=
  {| type := ty; screenX := px; screenY := py; clientX := px; target := 0%nat |}.


(** ** Derived notions used in the statements *)

(** The two tests of [handleMove], for a sample [e] of a gesture that
    started at [(sx, sy)]. *)
Definition exceedsMovement (sx sy : Z) (e : Event) : bool :=
  (Z.abs (screenX e - sx) >? MOVEMENT_DETECTION_THRESHOLD)
  || (Z.abs (screenY e - sy) >? MOVEMENT_DETECTION_THRESHOLD).

Definition horizontalDominant (sx sy : Z) (e : Event) : bool :=
  Z.abs (screenX e - sx) >? Z.abs (screenY e - sy).

(** Direction reported for a signed distance. *)
Definition directionOf (d : Z) : Z := if d >? 0 then -1 else 1.

Definition markMoved (e : Event) (s : GestureState) : GestureState :=
  if exceedsMovement (startX s) (startY s) e
  then set_hasActuallyDragged true s else s.


(** The double-tap test of [handleEnd]. *)
Definition inDoubleTapWindow (now : Z) (s : GestureState) : bool :=
  (now - lastTapTime s <? TAP_DELAY) && (now - lastTapTime s >? 0).

(** [if (this.state.tapTimeout) clearTimeout(this.state.tapTimeout)] on
    the timer queue. *)
Definition cancelPending (h : option TimerId) (ts : list Timer) : list Timer :=
  match h with
  | Some id => cancel id ts
  | None => ts
  end.

(** The world once a gesture has concluded at [now]: [reset()] followed by
    [this.state.lastTapTime = currentTime]. *)
Definition concluded (now : Z) (w : World) : World :=
  mkWorld (set_lastTapTime now createInitialState) (lastTouchTime w)
          (handlers w) (cancelPending (tapTimeout (state w)) (timers w))
          (nextTimerId w) (calls w).

(** The bookkeeping of a gesture that has stayed within the movement
    threshold: the accumulator is the distance from the start to the last
    tracked sample, itself within the threshold. *)
Definition withinTap (w : World) : Prop :=
  isDragging (state w) = true
  /\ hasActuallyDragged (state w) = false
  /\ accumulatedDistance (state w) = lastX (state w) - startX (state w)
  /\ Z.abs (lastX (state w) - startX (state w)) <= MOVEMENT_DETECTION_THRESHOLD.

(** The callbacks one call of [handleEnd] invokes. *)
Definition endCalls (e : Event) (now : Z) (w : World) : list Call :=
  if negb (isDragging (state w)) then []
  else if hasActuallyDragged (state w) then
    if Z.abs (screenX e - startX (state w)) >? DRAG_THRESHOLD then
      match onDrag (handlers w) with
      | Some _ => [CallDrag (directionOf (screenX e - startX (state w)))]
      | None => []
      end
    else []
  else if inDoubleTapWindow now (state w) then
    match onDoubleTap (handlers w) with
    | Some _ => [CallDoubleTap]
    | None => []
    end
  else [].

(** ** Sample worlds *)

Definition appWorld : World := createGestureHandler appSurface.

(** Callbacks of which only [onDrag] throws. *)
Definition dragThrowsCallbacks : Handlers :=
  {| onSwipe := Some (fun _ => Normal JUndefined);
     onDrag := Some (fun _ => Thrown);
     onTap := Some (fun _ => Normal JUndefined);
     onDoubleTap := Some (fun _ => Normal JUndefined) |}.

Definition dragThrowsSurface : Surface :=
  {| callbacks := dragThrowsCallbacks; shouldIgnoreEvent := None |}.

(** A tap at (100, 100) released at time 1000 on a fresh handler: its
    confirmation is pending. *)
Definition tapPending (sf : Surface) : World :=
  runOps (createGestureHandler sf)
         [OpStart (ev touchstart 100 100); OpEnd (ev touchend 100 100) 1000].

(** After that tap, a new gesture that has moved 60 px to the right. *)
Definition draggingAfterTap (sf : Surface) : World :=
  runOps (tapPending sf)
         [OpStart (ev touchstart 100 100); OpMove (ev touchmove 160 100)].

(** * The application behind the callbacks

    [eventHandlers.js] installs the four callbacks; they read and write
    the navigation state of [navigationState.js], whose setters announce
    changes on the event bus, and they call the mode transitions as the
    entry point wires them.  The display functions of [displayManager.js]
    render to the DOM: here a call to one of them is an entry of the
    effect log, and the call returns (two of the three are [async]; the
    third, [updateDisplay], is given an index of a listed book wherever
    the statements below rely on it).  Of the navigation state they write
    [previousTestament]
    only (and [currentBookIndex] with the index it already has), so the
    record below keeps the three fields the callbacks depend on. *)

Module Nav.

(** [MODES] of constants.js *)
Inductive Mode : Type := BOOKS | CHAPTERS | READING.

Record NavState : Type := mkNav {
  currentMode : Mode;
  currentBookIndex : Z;
  currentChapter : Z
}.

(** The module-level [state] of navigationState.js as the module is
    loaded. *)
Definition initialNav : NavState :=
  {| currentMode := BOOKS; currentBookIndex := 0; currentChapter := 1 |}.

(** What the callbacks do outside the navigation state, in order. *)
Inductive Effect : Type :=
| EmitBookChanged (oldIndex newIndex : Z)
| EmitChapterChanged (oldChapter newChapter : Z)
| SliderMin (v : Z)
| SliderMax (v : option Z)
| SliderValue (v : Z)
| UpdateDisplay (index : Z)
| UpdateChapterDisplay
| UpdateReadingDisplay.

Record App : Type := mkApp {
  nav : NavState;
  effects : list Effect
}.

(** The data the callbacks close over: the [book] names of [allBooks],
    in order, the [chapterCounts] table of data.js (a missing key reads
    [undefined]) and [window.innerWidth]. *)
Record Env : Type := mkEnv {
  allBooks : list string;
  chapterCounts : string -> option Z;
  innerWidth : Z
}.

Definition effect (f : Effect) (a : App) : App :=
  mkApp (nav a) (effects a ++ [f]).

Definition setMode (m : Mode) (a : App) : App :=
  mkApp (mkNav m (currentBookIndex (nav a)) (currentChapter (nav a))) (effects a).

Definition setChapter (c : Z) (a : App) : App :=
  mkApp (mkNav (currentMode (nav a)) (currentBookIndex (nav a)) c) (effects a).

Definition setBookIndex (i : Z) (a : App) : App :=
  mkApp (mkNav (currentMode (nav a)) i (currentChapter (nav a))) (effects a).

(** [setCurrentBookIndex]: the event is emitted only on a change. *)
Definition setCurrentBookIndex (index : Z) (a : App) : App :=
  let oldIndex := currentBookIndex (nav a) in
  let a1 := setBookIndex index a in
  if oldIndex =? index then a1 else effect (EmitBookChanged oldIndex index) a1.

(** [setCurrentChapter] *)
Definition setCurrentChapter (chapter : Z) (a : App) : App :=
  let oldChapter := currentChapter (nav a) in
  let a1 := setChapter chapter a in
  if oldChapter =? chapter then a1
  else effect (EmitChapterChanged oldChapter chapter) a1.

(** [allBooks[i]] for an integer [i]: [undefined] out of range. *)
Definition bookAt (env : Env) (i : Z) : option string :=
  if i <? 0 then None else nth_error (allBooks env) (Z.to_nat i).

(** [n <= chapters] and [chapters > 1] when [chapters] may be
    [undefined]: both are then false. *)
Definition leChapters (n : Z) (chapters : option Z) : bool :=
  match chapters with
  | Some c => n <=? c
  | None => false
  end.

Definition moreThanOne (chapters : option Z) : bool :=
  match chapters with
  | Some c => c >? 1
  | None => false
  end.

(** The mode transitions of navigationState.js, with the callbacks the
    entry point passes them. *)
Definition enterChapterMode (env : Env) (a : App) : Completion unit * App :=
  match bookAt env (currentBookIndex (nav a)) with
  | None => (Thrown, a)
  | Some book =>
      let chapters := chapterCounts env book in
      let a := setMode CHAPTERS a in
      let a := setChapter 1 a in
      let a := effect (SliderMin 1) a in
      let a := effect (SliderMax chapters) a in
      let a := effect (SliderValue 1) a in
      (Normal tt, effect UpdateChapterDisplay a)
  end.

Definition exitChapterMode (a : App) : Completion unit * App :=
  let a := setMode BOOKS a in
  let a := effect (SliderMin 0) a in
  let a := effect (SliderMax (Some 65)) a in
  let a := effect (SliderValue (currentBookIndex (nav a))) a in
  (Normal tt, effect (UpdateDisplay (currentBookIndex (nav a))) a).

Definition enterReadingMode (a : App) : Completion unit * App :=
  (Normal tt, effect UpdateReadingDisplay (setMode READING a)).

Definition exitReadingMode (a : App) : Completion unit * App :=
  (Normal tt, effect UpdateChapterDisplay (setMode CHAPTERS a)).

(** eventHandlers.js: [handleSwipe] *)
Definition handleSwipe (env : Env) (direction : Z) (a : App)
  : Completion bool * App :=
  match currentMode (nav a) with
  | BOOKS =>
      let newIndex := currentBookIndex (nav a) + direction in
      if (newIndex >=? 0) && (newIndex <? Z.of_nat (List.length (allBooks env)))
      then
        let a := setCurrentBookIndex newIndex a in
        let a := effect (SliderValue newIndex) a in
        (Normal true, effect (UpdateDisplay newIndex) a)
      else (Normal false, a)
  | CHAPTERS =>
      match bookAt env (currentBookIndex (nav a)) with
      | None => (Thrown, a)
      | Some book =>
          let chapters := chapterCounts env book in
          let newChapter := currentChapter (nav a) + direction in
          if (newChapter >=? 1) && leChapters newChapter chapters
          then
            let a := setCurrentChapter newChapter a in
            let a := effect (SliderValue newChapter) a in
            (Normal true, effect UpdateChapterDisplay a)
          else (Normal false, a)
      end
  | READING => (Normal false, a)
  end.

(** [handleDrag] *)
Definition handleDrag (env : Env) (direction : Z) (a : App)
  : Completion bool * App :=
  match currentMode (nav a) with
  | READING =>
      match bookAt env (currentBookIndex (nav a)) with
      | None => (Thrown, a)
      | Some book =>
          let chapters := chapterCounts env book in
          if moreThanOne chapters then
            let newChapter := currentChapter (nav a) + direction in
            if (newChapter >=? 1) && leChapters newChapter chapters
            then
              let a := setCurrentChapter newChapter a in
              (Normal true, effect UpdateReadingDisplay a)
            else (Normal false, a)
          else (Normal false, a)
      end
  | _ => (Normal false, a)
  end.

(** [handleTap]; [clientX < screenWidth / 2] on integers is
    [2 * clientX < screenWidth]. *)
Definition handleTap (env : Env) (tapX : Z) (a : App) : Completion unit * App :=
  match currentMode (nav a) with
  | BOOKS => enterChapterMode env a
  | CHAPTERS => enterReadingMode a
  | READING =>
      match bookAt env (currentBookIndex (nav a)) with
      | None => (Thrown, a)
      | Some book =>
          let chapters := chapterCounts env book in
          if moreThanOne chapters then
            let isLeftSide := 2 * tapX <? innerWidth env in
            let direction := if isLeftSide then -1 else 1 in
            let newChapter := currentChapter (nav a) + direction in
            if (newChapter >=? 1) && leChapters newChapter chapters
            then
              let a := setCurrentChapter newChapter a in
              (Normal tt, effect UpdateReadingDisplay a)
            else (Normal tt, a)
          else (Normal tt, a)
      end
  end.

(** [handleDoubleTap] *)
Definition handleDoubleTap (a : App) : Completion unit * App :=
  match currentMode (nav a) with
  | CHAPTERS => exitChapterMode a
  | READING => exitReadingMode a
  | BOOKS => (Normal tt, a)
  end.

(** The callbacks of [initEventHandlers], by the invocation they answer. *)
Definition onCall (env : Env) (c : Call) (a : App) : Completion unit * App :=
  match c with
  | CallSwipe d =>
      match handleSwipe env d a with
      | (Normal _, a') => (Normal tt, a')
      | (Thrown, a') => (Thrown, a')
      end
  | CallDrag d =>
      match handleDrag env d a with
      | (Normal _, a') => (Normal tt, a')
      | (Thrown, a') => (Thrown, a')
      end
  | CallTap tapX => handleTap env tapX a
  | CallDoubleTap => handleDoubleTap a
  end.

(** The application after a sequence of callback invocations. *)
Definition replay (env : Env) (cs : list Call) (a : App) : App :=
  fold_left (fun a c => snd (onCall env c a)) cs a.

(** Every listed book has a chapter count of at least one. *)
Definition envOK (env : Env) : Prop :=
  forall book, In book (allBooks env) ->
               exists n, chapterCounts env book = Some n /\ 1 <= n.

(** The navigation state points at a listed book and, outside the book
    list, at one of its chapters. *)
Definition inRange (env : Env) (a : App) : Prop :=
  exists book n,
    bookAt env (currentBookIndex (nav a)) = Some book
    /\ chapterCounts env book = Some n
    /\ 1 <= n
    /\ (currentMode (nav a) <> BOOKS -> 1 <= currentChapter (nav a) <= n).

End Nav.

(** * The event bus

    [eventBus.js].  A subscriber's function is known by its identity (a
    number); whether it throws on a payload is given by [throws].
    Subscribers do not call back into the bus; the only closure that does
    is the wrapper [once] creates, which unsubscribes itself. *)

Module Bus.

Definition Data : Type := Z.

(** The functions found in a listener array: a subscriber's function, or
    the wrapper closure made by [once(eventName, callback)], a fresh
    function object each time (hence the serial number). *)
Inductive Callback : Type :=
| Plain (f : nat)
| OnceWrapper (serial : nat) (eventName : string) (callback : nat).

Definition callback_eqb (c1 c2 : Callback) : bool :=
  match c1, c2 with
  | Plain f1, Plain f2 => Nat.eqb f1 f2
  | OnceWrapper s1 n1 f1, OnceWrapper s2 n2 f2 =>
      Nat.eqb s1 s2 && String.eqb n1 n2 && Nat.eqb f1 f2
  | _, _ => false
  end.

(** The [EventBus] instance: the [events] map, with what leaves it: the
    subscriber calls made and the [console.error] reports. *)
Record Bus : Type := mkBus {
  events : string -> option (list Callback);
  nextSerial : nat;
  invoked : list (nat * Data);
  reported : list string
}.

(** [new EventBus()] *)
Definition newBus : Bus :=
  {| events := fun _ => None; nextSerial := 0; invoked := []; reported := [] |}.

Definition setEvents (m : string -> option (list Callback)) (b : Bus) : Bus :=
  mkBus m (nextSerial b) (invoked b) (reported b).

(** [this.events.set(name, l)] and [this.events.delete(name)] *)
Definition mapSet (name : string) (l : list Callback)
           (m : string -> option (list Callback)) : string -> option (list Callback) :=
  fun n => if String.eqb n name then Some l else m n.

Definition mapDelete (name : string)
           (m : string -> option (list Callback)) : string -> option (list Callback) :=
  fun n => if String.eqb n name then None else m n.

(** [callbacks.indexOf(callback)], [None] for [-1] *)
Fixpoint indexOf (c : Callback) (l : list Callback) : option nat :=
  match l with
  | [] => None
  | c' :: l' =>
      if callback_eqb c' c then Some O
      else match indexOf c l' with
           | Some i => Some (S i)
           | None => None
           end
  end.

(** [callbacks.splice(index, 1)] *)
Fixpoint spliceOne (index : nat) (l : list Callback) : list Callback :=
  match index, l with
  | _, [] => []
  | O, _ :: l' => l'
  | S i, c :: l' => c :: spliceOne i l'
  end.

(** The body shared by [on]: create the array if missing, then push. *)
Definition subscribe (name : string) (c : Callback) (b : Bus) : Bus :=
  let m := match events b name with
           | Some _ => events b
           | None => mapSet name [] (events b)
           end in
  match m name with
  | Some l => setEvents (mapSet name (l ++ [c]) m) b
  | None => setEvents m b
  end.

(** The closure [on] returns. *)
Definition unsubscribe (name : string) (c : Callback) (b : Bus) : Bus :=
  match events b name with
  | Some callbacks =>
      match indexOf c callbacks with
      | Some index => setEvents (mapSet name (spliceOne index callbacks) (events b)) b
      | None => b
      end
  | None => b
  end.

(** [on(eventName, callback)] for a subscriber's function [f] *)
Definition on (name : string) (f : nat) (b : Bus) : Bus :=
  subscribe name (Plain f) b.

(** [once(eventName, callback)]: the wrapper is subscribed; the result
    also names the wrapper, which the returned closure unsubscribes. *)
Definition once (name : string) (f : nat) (b : Bus) : Callback * Bus :=
  let wrapper := OnceWrapper (nextSerial b) name f in
  let b1 := mkBus (events b) (S (nextSerial b)) (invoked b) (reported b) in
  (wrapper, subscribe name wrapper b1).

(** Calling a subscriber's function. *)
Definition callPlain (throws : nat -> Data -> bool) (f : nat) (data : Data)
           (b : Bus) : Completion unit * Bus :=
  let b1 := mkBus (events b) (nextSerial b) (invoked b ++ [(f, data)]) (reported b) in
  if throws f data then (Thrown, b1) else (Normal tt, b1).

(** Calling what is found in a listener array. *)
Definition call (throws : nat -> Data -> bool) (c : Callback) (data : Data)
           (b : Bus) : Completion unit * Bus :=
  match c with
  | Plain f => callPlain throws f data b
  | OnceWrapper _ name f => callPlain throws f data (unsubscribe name c b)
  end.

(** The body of the [forEach] in [emit]: try the callback, report what it
    throws. *)
Definition callCaught (throws : nat -> Data -> bool) (name : string)
           (c : Callback) (data : Data) (b : Bus) : Bus :=
  match call throws c data b with
  | (Normal _, b1) => b1
  | (Thrown, b1) =>
      mkBus (events b1) (nextSerial b1) (invoked b1) (reported b1 ++ [name])
  end.

(** [callbacks.forEach]: the indices [k], [k + 1], ... below the length
    the array had when [forEach] was called; an index the array no longer
    has is skipped. *)
Fixpoint forEachFrom (throws : nat -> Data -> bool) (name : string) (data : Data)
         (remaining k : nat) (b : Bus) : Bus :=
  match remaining with
  | O => b
  | S remaining' =>
      match events b name with
      | Some callbacks =>
          match nth_error callbacks k with
          | Some c =>
              forEachFrom throws name data remaining' (S k)
                          (callCaught throws name c data b)
          | None => forEachFrom throws name data remaining' (S k) b
          end
      | None => b (* only [off] removes the array, and no callback calls it *)
      end
  end.

(** [emit(eventName, data)] *)
Definition emit (throws : nat -> Data -> bool) (name : string) (data : Data)
           (b : Bus) : Bus :=
  match events b name with
  | Some callbacks => forEachFrom throws name data (List.length callbacks) 0 b
  | None => b
  end.

(** [off(eventName)]; no argument is [None]; the empty string is falsy. *)
Definition off (eventName : option string) (b : Bus) : Bus :=
  match eventName with
  | Some name =>
      if String.eqb name EmptyString
      then setEvents (fun _ => None) b
      else setEvents (mapDelete name (events b)) b
  | None => setEvents (fun _ => None) b
  end.

(** [listenerCount(eventName)] *)
Definition listenerCount (name : string) (b : Bus) : nat :=
  match events b name with
  | Some callbacks => List.length callbacks
  | None => O
  end.

End Bus.

(** * Book data utilities

    [bookDataUtils.js].  Book names are strings of bytes; the regular
    expression [/[A-Z]/] matches the bytes 65 to 90. *)

Module Books.

Definition isUpper (c : ascii) : bool :=
  (65 <=? nat_of_ascii c)%nat && (nat_of_ascii c <=? 90)%nat.

(** [bookName.match(/[A-Z]/)?.[0]]; [None] is [undefined]. *)
Fixpoint getFirstAlphabeticChar (bookName : string) : option ascii :=
  match bookName with
  | EmptyString => None
  | String c rest =>
      if isUpper c then Some c else getFirstAlphabeticChar rest
  end.

(** The object built by [buildLetterToBookIndex]: a missing key reads
    [undefined]. *)
Definition LetterMap : Type := ascii -> option nat.

Definition letterSet (c : ascii) (index : nat) (m : LetterMap) : LetterMap :=
  fun k => if Ascii.eqb k c then Some index else m k.

(** [!letterToBookIndex[firstChar]]: [undefined] and [0] are falsy. *)
Definition unset (v : option nat) : bool :=
  match v with
  | None => true
  | Some O => true
  | Some (S _) => false
  end.

(** The [forEach((item, index) => ...)] of [buildLetterToBookIndex], from
    [index] on. *)
Fixpoint buildFrom (index : nat) (books : list string) (m : LetterMap) : LetterMap :=
  match books with
  | [] => m
  | book :: rest =>
      let m' :=
        match getFirstAlphabeticChar book with
        | Some firstChar =>
            if unset (m firstChar) then letterSet firstChar index m else m
        | None => m
        end in
      buildFrom (S index) rest m'
  end.

Definition buildLetterToBookIndex (books : list string) : LetterMap :=
  buildFrom 0 books (fun _ => None).

(** The indices, counted from [index], of the books whose first capital
    is [c]. *)
Fixpoint occurrencesFrom (index : nat) (books : list string) (c : ascii)
  : list nat :=
  match books with
  | [] => []
  | book :: rest =>
      match getFirstAlphabeticChar book with
      | Some c' =>
          if Ascii.eqb c' c then index :: occurrencesFrom (S index) rest c
          else occurrencesFrom (S index) rest c
      | None => occurrencesFrom (S index) rest c
      end
  end.

End Books.

(** ** Sample data *)

(** Three books with 50, 40 and 1 chapters, in a window 400 px wide. *)
Definition sampleEnv : Nav.Env :=
  {| Nav.allBooks := ["Genesis"%string; "Exodus"%string; "Obadiah"%string];
     Nav.chapterCounts :=
       fun book =>
         if String.eqb book "Genesis" then Some 50
         else if String.eqb book "Exodus" then Some 40
         else if String.eqb book "Obadiah" then Some 1
         else None;
     Nav.innerWidth := 400 |}.

(** The navigation state at the given place, nothing done yet. *)
Definition appAt (mode : Nav.Mode) (index chapter : Z) : Nav.App :=
  {| Nav.nav := Nav.mkNav mode index chapter; Nav.effects := [] |}.

(** A bus with the functions 1, 3 and 4 subscribed to the event e, and
    the function 2 subscribed once between 1 and 3. *)
Definition sampleBus : Bus.Bus :=
  Bus.on "e" 4 (Bus.on "e" 3 (snd (Bus.once "e" 2 (Bus.on "e" 1 Bus.newBus)))).

(** A surface whose predicate excludes the events on target 1. *)
Definition excludingSurface : Surface :=
  {| callbacks := appCallbacks;
     shouldIgnoreEvent := Some (fun e => Nat.eqb (target e) 1) |}.

(** The operations that are calls of the handler's methods, as opposed to
    timer expiries. *)
Definition notTimer (o : Op) : bool :=
  match o with
  | OpTimer _ _ => false
  | _ => true
  end.

(** * Basic equations of the methods *)

Ltac world w :=
  let s := fresh "s" in
  destruct w as [s ? ? ? ? ?]; destruct s; simpl in *.

Ltac run_method :=
  cbv [handleStart handleMove handleEnd reset tapTimerCallback timerFires
       bind ret getState getHandlers getLastTouchTime modifyState
       setLastTouchTime invoke setTimeout clearTimeout getEventCoordinates
       withState withTimers withCalls markMoved exceedsMovement
       horizontalDominant directionOf
       set_startX set_startY set_lastX set_accumulatedDistance
       set_isDragging set_hasActuallyDragged set_lastTapTime set_tapTimeout
       x y coordsClientX state lastTouchTime handlers timers nextTimerId calls
       startX startY lastX accumulatedDistance isDragging hasActuallyDragged
       lastTapTime tapTimeout
       SWIPE_THRESHOLD DRAG_THRESHOLD MOVEMENT_DETECTION_THRESHOLD TAP_DELAY].

Ltac split_paths :=
  repeat (match goal with
          | |- context [if negb ?b then _ else _] => destruct b eqn:?
          | |- context [if ?b then _ else _] =>
              lazymatch b with
              | context [if _ then _ else _] => fail
              | _ => destruct b eqn:?
              end
          | |- context [match ?b with Some _ => _ | None => _ end] =>
              destruct b eqn:?
          | |- context [match ?b with Normal _ => _ | Thrown => _ end] =>
              destruct b eqn:?
          end; simpl).

Lemma handleStart_eq (e : Event) (w : World) :
  handleStart e w =
  (Normal tt,
   withState
     (mkState (screenX e) (screenY e) (screenX e) 0 true false
              (lastTapTime (state w)) (tapTimeout (state w))) w).
Proof. reflexivity. Qed.

Lemma handleMove_inactive (e : Event) (w : World) :
  isDragging (state w) = false -> handleMove e w = (Normal JNull, w).
Proof.
  world w. intros ->. reflexivity.
Qed.

Lemma handleMove_vertical (e : Event) (w : World) :
  isDragging (state w) = true ->
  horizontalDominant (startX (state w)) (startY (state w)) e = false ->
  handleMove e w = (Normal JNull, withState (markMoved e (state w)) w).
Proof.
  world w. intros -> Hh. run_method.
  cbv [horizontalDominant] in Hh. simpl.
  destruct (_ || _); simpl; rewrite Hh; reflexivity.
Qed.

(** A horizontal sample that keeps the accumulator below the threshold. *)
Lemma handleMove_track (e : Event) (w : World) :
  isDragging (state w) = true ->
  horizontalDominant (startX (state w)) (startY (state w)) e = true ->
  Z.abs (accumulatedDistance (state w) + (screenX e - lastX (state w)))
    < SWIPE_THRESHOLD ->
  handleMove e w =
  (Normal (JObject true),
   withState
     (set_lastX (screenX e)
        (set_accumulatedDistance
           (accumulatedDistance (state w) + (screenX e - lastX (state w)))
           (markMoved e (state w)))) w).
Proof.
  world w. intros -> Hh Ha. run_method.
  cbv [horizontalDominant] in Hh. cbv [SWIPE_THRESHOLD] in Ha. simpl.
  destruct (_ || _); simpl; rewrite Hh; simpl;
    (destruct (Z.geb_spec (Z.abs (accumulatedDistance0 + (screenX e - lastX0))) 20);
     [lia | reflexivity]).
Qed.

(** A horizontal sample that takes the accumulator to the threshold, with
    an [onSwipe] callback installed. *)
Lemma handleMove_swipe (e : Event) (w : World) (f : Z -> Completion JsValue) :
  isDragging (state w) = true ->
  horizontalDominant (startX (state w)) (startY (state w)) e = true ->
  SWIPE_THRESHOLD <=
    Z.abs (accumulatedDistance (state w) + (screenX e - lastX (state w))) ->
  onSwipe (handlers w) = Some f ->
  let d := directionOf
             (accumulatedDistance (state w) + (screenX e - lastX (state w))) in
  handleMove e w =
  (f d,
   withCalls (calls w ++ [CallSwipe d])
     (withState
        (set_lastX (screenX e)
           (set_accumulatedDistance 0 (markMoved e (state w)))) w)).
Proof.
  world w. intros -> Hh Ha Hf. run_method.
  cbv [horizontalDominant] in Hh. cbv [SWIPE_THRESHOLD] in Ha. simpl.
  destruct (_ || _); simpl; rewrite Hh; simpl;
    (destruct (Z.geb_spec (Z.abs (accumulatedDistance0 + (screenX e - lastX0))) 20);
     [| lia]); simpl; rewrite Hf; reflexivity.
Qed.

(** The same sample with no [onSwipe] callback. *)
Lemma handleMove_swipe_unhandled (e : Event) (w : World) :
  isDragging (state w) = true ->
  horizontalDominant (startX (state w)) (startY (state w)) e = true ->
  SWIPE_THRESHOLD <=
    Z.abs (accumulatedDistance (state w) + (screenX e - lastX (state w))) ->
  onSwipe (handlers w) = None ->
  handleMove e w =
  (Normal (JObject true),
   withState
     (set_lastX (screenX e)
        (set_accumulatedDistance 0 (markMoved e (state w)))) w).
Proof.
  world w. intros -> Hh Ha Hf. run_method.
  cbv [horizontalDominant] in Hh. cbv [SWIPE_THRESHOLD] in Ha. simpl.
  destruct (_ || _); simpl; rewrite Hh; simpl;
    (destruct (Z.geb_spec (Z.abs (accumulatedDistance0 + (screenX e - lastX0))) 20);
     [| lia]); simpl; rewrite Hf; reflexivity.
Qed.

Lemma handleEnd_inactive (e : Event) (now : Z) (w : World) :
  isDragging (state w) = false -> handleEnd e now w = (Normal None, w).
Proof.
  world w. intros ->. reflexivity.
Qed.

(** The drag path when [onDrag] is not called. *)
Lemma handleEnd_drag_quiet (e : Event) (now : Z) (w : World) :
  isDragging (state w) = true ->
  hasActuallyDragged (state w) = true ->
  Z.abs (screenX e - startX (state w)) <= DRAG_THRESHOLD
  \/ onDrag (handlers w) = None ->
  handleEnd e now w = (Normal (Some GDrag), concluded now w).
Proof.
  world w. intros -> -> H. cbv [DRAG_THRESHOLD] in H. run_method. simpl.
  destruct (Z.gtb_spec (Z.abs (screenX e - startX0)) 50).
  - destruct H as [H | H]; [lia |]. rewrite H.
    destruct tapTimeout0; reflexivity.
  - destruct tapTimeout0; reflexivity.
Qed.

(** The drag path when [onDrag] is called: the callback runs first. *)
Lemma handleEnd_drag_fire (e : Event) (now : Z) (w : World)
      (f : Z -> Completion JsValue) :
  isDragging (state w) = true ->
  hasActuallyDragged (state w) = true ->
  DRAG_THRESHOLD < Z.abs (screenX e - startX (state w)) ->
  onDrag (handlers w) = Some f ->
  let d := directionOf (screenX e - startX (state w)) in
  let w1 := withCalls (calls w ++ [CallDrag d]) w in
  handleEnd e now w =
  match f d with
  | Normal _ => (Normal (Some GDrag), concluded now w1)
  | Thrown => (Thrown, w1)
  end.
Proof.
  world w. intros -> -> H Hf. cbv [DRAG_THRESHOLD] in H. run_method. simpl.
  destruct (Z.gtb_spec (Z.abs (screenX e - startX0)) 50); [| lia].
  rewrite Hf. destruct (f _); [| reflexivity].
  destruct tapTimeout0; reflexivity.
Qed.

(** The double-tap path: the pending timer is cleared, then the callback
    runs, then the state is reset. *)
Lemma handleEnd_doubleTap (e : Event) (now : Z) (w : World) :
  isDragging (state w) = true ->
  hasActuallyDragged (state w) = false ->
  inDoubleTapWindow now (state w) = true ->
  let w1 :=
    withTimers (cancelPending (tapTimeout (state w)) (timers w))
      (withState (set_tapTimeout None (state w)) w) in
  handleEnd e now w =
  match onDoubleTap (handlers w) with
  | Some f =>
      let w2 := withCalls (calls w ++ [CallDoubleTap]) w1 in
      match f tt with
      | Normal _ => (Normal (Some GDoubleTap), concluded now w2)
      | Thrown => (Thrown, w2)
      end
  | None => (Normal (Some GDoubleTap), concluded now w1)
  end.
Proof.
  world w. intros -> -> H. cbv [inDoubleTapWindow TAP_DELAY] in H.
  run_method. simpl in *. rewrite H.
  destruct tapTimeout0; simpl;
    (destruct (onDoubleTap handlers0) as [f |]; [destruct (f tt) |]);
    reflexivity.
Qed.

(** The single-tap path: no callback; a confirmation is scheduled. *)
Lemma handleEnd_tap (e : Event) (now : Z) (w : World) :
  isDragging (state w) = true ->
  hasActuallyDragged (state w) = false ->
  inDoubleTapWindow now (state w) = false ->
  handleEnd e now w =
  (Normal (Some GTap),
   mkWorld
     (set_accumulatedDistance 0
        (set_isDragging false
           (set_lastTapTime now
              (set_tapTimeout (Some (nextTimerId w)) (state w)))))
     (lastTouchTime w) (handlers w)
     (cancelPending (tapTimeout (state w)) (timers w)
        ++ [mkTimer (nextTimerId w) (now + TAP_DELAY) (clientX e)])
     (Pos.succ (nextTimerId w)) (calls w)).
Proof.
  world w. intros -> -> H. cbv [inDoubleTapWindow TAP_DELAY] in H.
  run_method. simpl in *. rewrite H.
  destruct tapTimeout0; reflexivity.
Qed.

(** * Moves *)

(** What one horizontal-dominant sample does to the world, whatever the
    callback's completion. *)
Lemma handleMove_horizontal (e : Event) (w : World) :
  isDragging (state w) = true ->
  horizontalDominant (startX (state w)) (startY (state w)) e = true ->
  let a := accumulatedDistance (state w) + (screenX e - lastX (state w)) in
  let fired := SWIPE_THRESHOLD <=? Z.abs a in
  let w' := snd (handleMove e w) in
  state w' =
    set_lastX (screenX e)
      (set_accumulatedDistance (if fired then 0 else a) (markMoved e (state w)))
  /\ handlers w' = handlers w
  /\ timers w' = timers w
  /\ nextTimerId w' = nextTimerId w
  /\ lastTouchTime w' = lastTouchTime w
  /\ calls w' =
       calls w ++
       (if fired
        then match onSwipe (handlers w) with
             | Some _ => [CallSwipe (directionOf a)]
             | None => []
             end
        else []).
Proof.
  intros Hact Hh a fired w'. subst w' fired.
  destruct (Z.leb_spec SWIPE_THRESHOLD (Z.abs a)) as [Hge | Hlt].
  - destruct (onSwipe (handlers w)) as [f |] eqn:Hf.
    + rewrite (handleMove_swipe e w f Hact Hh Hge Hf). simpl.
      repeat split; reflexivity.
    + rewrite (handleMove_swipe_unhandled e w Hact Hh Hge Hf). simpl.
      rewrite app_nil_r. repeat split; reflexivity.
  - rewrite (handleMove_track e w Hact Hh Hlt). simpl.
    rewrite app_nil_r. repeat split; reflexivity.
Qed.

Lemma markMoved_frame (e : Event) (s : GestureState) :
  startX (markMoved e s) = startX s
  /\ startY (markMoved e s) = startY s
  /\ lastX (markMoved e s) = lastX s
  /\ accumulatedDistance (markMoved e s) = accumulatedDistance s
  /\ isDragging (markMoved e s) = isDragging s
  /\ lastTapTime (markMoved e s) = lastTapTime s
  /\ tapTimeout (markMoved e s) = tapTimeout s.
Proof.
  unfold markMoved. destruct (exceedsMovement _ _ e); repeat split; reflexivity.
Qed.

(** A run of vertical-dominant samples leaves the accumulator, [lastX] and
    the call log alone. *)
Lemma vertical_moves_frame (moves : list Event) :
  forall w : World,
    Forall (fun e =>
              horizontalDominant (startX (state w)) (startY (state w)) e = false)
           moves ->
    let w' := runOps w (map OpMove moves) in
    calls w' = calls w
    /\ accumulatedDistance (state w') = accumulatedDistance (state w)
    /\ lastX (state w') = lastX (state w).
Proof.
  induction moves as [| e moves IH]; intros w Hall; simpl.
  - repeat split; reflexivity.
  - inversion Hall as [| ? ? He Hrest]; subst.
    destruct (isDragging (state w)) eqn:Hact.
    + rewrite (handleMove_vertical e w Hact He). simpl.
      destruct (markMoved_frame e (state w)) as (Hx & Hy & Hl & Ha & _).
      specialize (IH (withState (markMoved e (state w)) w)).
      simpl in IH. rewrite Hx, Hy in IH. specialize (IH Hrest).
      destruct IH as (Hc & Hacc & Hlast). simpl in *.
      rewrite Hc, Hacc, Hlast. repeat split; assumption.
    + rewrite (handleMove_inactive e w Hact). simpl. apply IH; assumption.
Qed.

(** While a gesture is active and horizontal-dominant samples come in, the
    gesture stays active, keeps its origin, and the accumulator stays
    strictly below the threshold. *)
Lemma horizontal_moves_inv (moves : list Event) :
  forall w : World,
    isDragging (state w) = true ->
    Z.abs (accumulatedDistance (state w)) < SWIPE_THRESHOLD ->
    Forall (fun e =>
              horizontalDominant (startX (state w)) (startY (state w)) e = true)
           moves ->
    let w' := runOps w (map OpMove moves) in
    isDragging (state w') = true
    /\ startX (state w') = startX (state w)
    /\ startY (state w') = startY (state w)
    /\ handlers w' = handlers w
    /\ Z.abs (accumulatedDistance (state w')) < SWIPE_THRESHOLD.
Proof.
  induction moves as [| e moves IH]; intros w Hact Hacc Hall; simpl.
  - repeat split; try reflexivity; assumption.
  - inversion Hall as [| ? ? He Hrest]; subst.
    destruct (handleMove_horizontal e w Hact He) as (Hs & Hh & _).
    destruct (markMoved_frame e (state w)) as (Hx & Hy & _ & _ & Hd & _).
    specialize (IH (snd (handleMove e w))).
    rewrite Hs in IH. simpl in IH. rewrite Hx, Hy, Hd in IH.
    assert (Hnew : Z.abs
              (if SWIPE_THRESHOLD <=?
                    Z.abs (accumulatedDistance (state w) + (screenX e - lastX (state w)))
               then 0
               else accumulatedDistance (state w) + (screenX e - lastX (state w)))
              < SWIPE_THRESHOLD).
    { destruct (Z.leb_spec SWIPE_THRESHOLD
                  (Z.abs (accumulatedDistance (state w) + (screenX e - lastX (state w)))));
        [cbv [SWIPE_THRESHOLD]; lia | assumption]. }
    specialize (IH Hact Hnew Hrest).
    destruct IH as (I1 & I2 & I3 & I4 & I5).
    repeat split; try assumption. congruence.
Qed.

(** * The timer queue invariant *)

Lemma wf_cancelPending (w : World) :
  wf w -> cancelPending (tapTimeout (state w)) (timers w) = [].
Proof.
  intros [Hp _]. unfold pendingOK in Hp.
  destruct (timers w) as [| t [| t' ts]]; try contradiction.
  - destruct (tapTimeout (state w)); reflexivity.
  - rewrite Hp. simpl. rewrite Pos.eqb_refl. reflexivity.
Qed.

Lemma Forall_prefix {A} (P : A -> Prop) (n : nat) :
  forall l : list A, Forall P l -> Forall P (firstn n l).
Proof.
  induction n as [| n IH]; intros [| a l] H; simpl; try constructor.
  - inversion H; assumption.
  - apply IH. inversion H; assumption.
Qed.

Lemma directionOf_sgn (a : Z) : a <> 0 -> directionOf a = - Z.sgn a.
Proof.
  intros Ha. unfold directionOf. destruct (Z.gtb_spec a 0); lia.
Qed.

(** * Swipes *)

(** C9. In a gesture whose every move sample is vertical-dominant
    ([|deltaY| > |deltaX|] relative to the gesture's start), after every
    prefix of the samples no callback has been invoked (so [onSwipe] never
    fires) and [accumulatedDistance] is still 0. *)
Theorem C9_vertical_moves_never_swipe
        (w0 : World) (e0 : Event) (moves : list Event) (n : nat) :
  Forall (fun e =>
            Z.abs (screenY e - screenY e0) > Z.abs (screenX e - screenX e0))
         moves ->
  let w := runOps (runOp w0 (OpStart e0)) (map OpMove (firstn n moves)) in
  calls w = calls w0 /\ accumulatedDistance (state w) = 0.
Proof.
  intros Hall w. subst w.
  pose (w1 := runOp w0 (OpStart e0)).
  destruct (vertical_moves_frame (firstn n moves) w1) as (Hc & Ha & _).
  - apply Forall_prefix. revert Hall. apply Forall_impl. intros e Hall.
    simpl. unfold horizontalDominant.
    destruct (Z.gtb_spec (Z.abs (screenX e - screenX e0))
                         (Z.abs (screenY e - screenY e0))); [lia | reflexivity].
  - fold w1. rewrite Hc, Ha. split; reflexivity.
Qed.




(** * Ending a gesture *)

(** C10. A gesture that moved ([hasActuallyDragged]) but whose net
    horizontal displacement is at most the drag threshold ends without any
    callback: [handleEnd] returns ['drag'], the state is the initial state
    except for [lastTapTime], which holds the end time, and the pending tap
    timer named by the state is cancelled (so that none is left). *)
Theorem C10_short_drag_is_silent (e : Event) (now : Z) (w : World) :
  isDragging (state w) = true ->
  hasActuallyDragged (state w) = true ->
  Z.abs (screenX e - startX (state w)) <= DRAG_THRESHOLD ->
  let r := handleEnd e now w in
  fst r = Normal (Some GDrag)
  /\ calls (snd r) = calls w
  /\ state (snd r) = mkState 0 0 0 0 false false now None
  /\ timers (snd r) = cancelPending (tapTimeout (state w)) (timers w)
  /\ (wf w -> timers (snd r) = []).
Proof.
  intros Hact Hmoved Hshort r. subst r.
  rewrite (handleEnd_drag_quiet e now w Hact Hmoved (or_introl Hshort)).
  simpl. repeat split. apply wf_cancelPending.
Qed.

(** * Frame properties *)

(** No method writes [lastTouchTime], [handlers], or moves the timer id
    counter backwards; [handleMove] and [handleStart] leave the timers and
    the tap bookkeeping alone. *)
Lemma handleMove_frame (e : Event) (w : World) :
  let w' := snd (handleMove e w) in
  lastTouchTime w' = lastTouchTime w
  /\ handlers w' = handlers w
  /\ timers w' = timers w
  /\ nextTimerId w' = nextTimerId w
  /\ tapTimeout (state w') = tapTimeout (state w)
  /\ lastTapTime (state w') = lastTapTime (state w).
Proof.
  world w. run_method. simpl. split_paths; repeat split; reflexivity.
Qed.

Lemma handleEnd_frame (e : Event) (now : Z) (w : World) :
  let w' := snd (handleEnd e now w) in
  lastTouchTime w' = lastTouchTime w /\ handlers w' = handlers w.
Proof.
  world w. run_method. simpl. split_paths; repeat split; reflexivity.
Qed.

Lemma timerFires_frame (id : TimerId) (now : Z) (w : World) :
  let w' := snd (timerFires id now w) in
  lastTouchTime w' = lastTouchTime w
  /\ handlers w' = handlers w
  /\ nextTimerId w' = nextTimerId w
  /\ lastTapTime (state w') = lastTapTime (state w).
Proof.
  world w. run_method. simpl. split_paths; repeat split; reflexivity.
Qed.

Lemma handleMove_moved_sticky (e : Event) (w : World) :
  hasActuallyDragged (state w) = true ->
  hasActuallyDragged (state (snd (handleMove e w))) = true.
Proof.
  world w. intros ->. run_method. simpl. split_paths; reflexivity.
Qed.

Lemma moves_moved_sticky (moves : list Event) :
  forall w : World,
    hasActuallyDragged (state w) = true ->
    hasActuallyDragged (state (runOps w (map OpMove moves))) = true.
Proof.
  induction moves as [| e moves IH]; intros w H; simpl; [assumption |].
  apply IH. apply handleMove_moved_sticky. assumption.
Qed.

Lemma runOps_app (w : World) (os1 os2 : list Op) :
  runOps w (os1 ++ os2) = runOps (runOps w os1) os2.
Proof. apply fold_left_app. Qed.

Lemma runOps_cons (w : World) (o : Op) (os : list Op) :
  runOps w (o :: os) = runOps (runOp w o) os.
Proof. reflexivity. Qed.

(** * Timers *)

Lemma timerFires_idle (id : TimerId) (now : Z) (w : World) :
  timers w = [] -> timerFires id now w = (Normal tt, w).
Proof.
  intros H. unfold timerFires. rewrite H. reflexivity.
Qed.

(** A timer whose delay has not elapsed does not fire. *)
Lemma timerFires_not_due (id : TimerId) (now : Z) (w : World) :
  Forall (fun t => now < due t) (timers w) ->
  timerFires id now w = (Normal tt, w).
Proof.
  intros H. unfold timerFires, findTimer.
  destruct (find _ (timers w)) as [t |] eqn:Hfind; [| reflexivity].
  apply find_some in Hfind. destruct Hfind as [Hin _].
  rewrite Forall_forall in H. specialize (H t Hin).
  destruct (Z.leb_spec (due t) now); [lia | reflexivity].
Qed.

(** When the only scheduled timer comes due, its closure calls [onTap]
    with the [clientX] captured at the tap. *)
Lemma timerFires_due (t : Timer) (now : Z) (w : World)
      (f : Z -> Completion JsValue) :
  timers w = [t] ->
  due t <= now ->
  onTap (handlers w) = Some f ->
  let w' := snd (timerFires (timerId t) now w) in
  calls w' = calls w ++ [CallTap (tapClientX t)] /\ timers w' = [].
Proof.
  intros Ht Hdue Hf. unfold timerFires, findTimer. rewrite Ht. simpl.
  rewrite Pos.eqb_refl.
  destruct (Z.leb_spec (due t) now); [| lia].
  world w. subst. run_method. simpl. rewrite Pos.eqb_refl, Hf. simpl.
  destruct (f (tapClientX t)); split; reflexivity.
Qed.

Lemma wf_idle (w : World) : timers w = [] -> wf w.
Proof.
  intros H. unfold wf, pendingOK. rewrite H. split; constructor.
Qed.

Lemma wf_frame (w w' : World) :
  timers w' = timers w ->
  nextTimerId w' = nextTimerId w ->
  tapTimeout (state w') = tapTimeout (state w) ->
  wf w -> wf w'.
Proof.
  unfold wf, pendingOK. intros -> -> ->. trivial.
Qed.

Lemma wf_handleStart (e : Event) (w : World) :
  wf w -> wf (snd (handleStart e w)).
Proof. apply wf_frame; reflexivity. Qed.

Lemma wf_handleMove (e : Event) (w : World) :
  wf w -> wf (snd (handleMove e w)).
Proof.
  destruct (handleMove_frame e w) as (_ & _ & Ht & Hn & Hp & _).
  apply wf_frame; assumption.
Qed.

Lemma wf_handleEnd (e : Event) (now : Z) (w : World) :
  wf w -> wf (snd (handleEnd e now w)).
Proof.
  intros Hwf. pose proof (wf_cancelPending w Hwf) as Hnone.
  destruct (isDragging (state w)) eqn:Hact.
  2: { rewrite (handleEnd_inactive e now w Hact). assumption. }
  destruct (hasActuallyDragged (state w)) eqn:Hmoved.
  - destruct (Z.le_gt_cases (Z.abs (screenX e - startX (state w))) DRAG_THRESHOLD)
      as [Hshort | Hlong].
    { rewrite (handleEnd_drag_quiet e now w Hact Hmoved (or_introl Hshort)).
      apply wf_idle. assumption. }
    destruct (onDrag (handlers w)) as [f |] eqn:Hf.
    + rewrite (handleEnd_drag_fire e now w f Hact Hmoved Hlong Hf).
      destruct (f _).
      * apply wf_idle. assumption.
      * revert Hwf. apply wf_frame; reflexivity.
    + rewrite (handleEnd_drag_quiet e now w Hact Hmoved (or_intror Hf)).
      apply wf_idle. assumption.
  - destruct (inDoubleTapWindow now (state w)) eqn:Hwin.
    + rewrite (handleEnd_doubleTap e now w Hact Hmoved Hwin).
      destruct (onDoubleTap (handlers w)) as [f |]; [destruct (f tt) |];
        apply wf_idle; simpl; rewrite Hnone; (assumption || reflexivity).
    + rewrite (handleEnd_tap e now w Hact Hmoved Hwin). simpl.
      unfold wf, pendingOK. simpl. rewrite Hnone. simpl.
      split; [reflexivity |]. constructor; [| constructor]. simpl. lia.
Qed.

Lemma wf_timerFires (id : TimerId) (now : Z) (w : World) :
  wf w -> wf (snd (timerFires id now w)).
Proof.
  intros Hwf. unfold timerFires, findTimer.
  destruct Hwf as [Hp Hfresh]. unfold pendingOK in Hp.
  destruct (timers w) as [| t [| t' ts]] eqn:Ht; try contradiction.
  - simpl. apply wf_idle. assumption.
  - simpl. destruct (Pos.eqb_spec (timerId t) id) as [Heq |].
    + destruct (Z.leb_spec (due t) now).
      * apply wf_idle. world w. subst. run_method. simpl.
        rewrite Pos.eqb_refl. simpl. split_paths; reflexivity.
      * simpl. unfold wf, pendingOK. rewrite Ht. split; assumption.
    + simpl. unfold wf, pendingOK. rewrite Ht. split; assumption.
Qed.

(** At most one tap confirmation is ever scheduled, whatever the
    operations and whether or not callbacks throw. *)
Lemma wf_runOp (w : World) (o : Op) : wf w -> wf (runOp w o).
Proof.
  destruct o; simpl.
  - apply wf_handleStart.
  - apply wf_handleMove.
  - apply wf_handleEnd.
  - apply wf_timerFires.
Qed.

Lemma wf_runOps (os : list Op) : forall w : World, wf w -> wf (runOps w os).
Proof.
  induction os as [| o os IH]; intros w H; simpl; [assumption |].
  apply IH. apply wf_runOp. assumption.
Qed.

(** * Tap-eligible gestures *)

Lemma exceedsMovement_false (sx sy : Z) (e : Event) :
  exceedsMovement sx sy e = false ->
  Z.abs (screenX e - sx) <= MOVEMENT_DETECTION_THRESHOLD
  /\ Z.abs (screenY e - sy) <= MOVEMENT_DETECTION_THRESHOLD.
Proof.
  unfold exceedsMovement. intros H. apply orb_false_elim in H.
  destruct H as [H1 H2]. split.
  - destruct (Z.gtb_spec (Z.abs (screenX e - sx)) MOVEMENT_DETECTION_THRESHOLD);
      [discriminate | assumption].
  - destruct (Z.gtb_spec (Z.abs (screenY e - sy)) MOVEMENT_DETECTION_THRESHOLD);
      [discriminate | assumption].
Qed.

Lemma handleMove_marks (e : Event) (w : World) :
  isDragging (state w) = true ->
  exceedsMovement (startX (state w)) (startY (state w)) e = true ->
  hasActuallyDragged (state (snd (handleMove e w))) = true.
Proof.
  world w. intros -> H. cbv [exceedsMovement MOVEMENT_DETECTION_THRESHOLD] in H.
  run_method. simpl. rewrite H. simpl. split_paths; reflexivity.
Qed.

Lemma withinTap_start (e : Event) (w : World) :
  withinTap (snd (handleStart e w)).
Proof.
  unfold withinTap. simpl. cbv [MOVEMENT_DETECTION_THRESHOLD].
  repeat split; try reflexivity; lia.
Qed.

Lemma handleMove_within (e : Event) (w : World) :
  withinTap w ->
  exceedsMovement (startX (state w)) (startY (state w)) e = false ->
  let w' := snd (handleMove e w) in
  withinTap w' /\ calls w' = calls w.
Proof.
  intros (Hact & Hflag & Hacc & Hnear) Hin w'. subst w'.
  pose proof (exceedsMovement_false _ _ _ Hin) as [Hdx Hdy].
  assert (Hid : markMoved e (state w) = state w)
    by (unfold markMoved; rewrite Hin; reflexivity).
  destruct (horizontalDominant (startX (state w)) (startY (state w)) e) eqn:Hh.
  - rewrite (handleMove_track e w Hact Hh)
      by (cbv [SWIPE_THRESHOLD MOVEMENT_DETECTION_THRESHOLD] in *; lia).
    rewrite Hid. unfold withinTap. simpl.
    repeat split; try assumption; lia.
  - rewrite (handleMove_vertical e w Hact Hh). rewrite Hid.
    unfold withinTap. simpl. repeat split; assumption.
Qed.

(** Move samples of a gesture that is still tap-eligible at its end fire
    no callback and touch neither the timers nor the tap bookkeeping. *)
Lemma tap_moves_quiet (moves : list Event) :
  forall w : World,
    withinTap w ->
    hasActuallyDragged (state (runOps w (map OpMove moves))) = false ->
    let w' := runOps w (map OpMove moves) in
    withinTap w'
    /\ calls w' = calls w
    /\ handlers w' = handlers w
    /\ timers w' = timers w
    /\ nextTimerId w' = nextTimerId w
    /\ tapTimeout (state w') = tapTimeout (state w)
    /\ lastTapTime (state w') = lastTapTime (state w).
Proof.
  induction moves as [| e moves IH]; intros w Hin Hend.
  - repeat split; try reflexivity; apply Hin.
  - change (map OpMove (e :: moves)) with (OpMove e :: map OpMove moves) in *.
    rewrite runOps_cons in *.
    change (runOp w (OpMove e)) with (snd (handleMove e w)) in *.
    destruct (exceedsMovement (startX (state w)) (startY (state w)) e) eqn:Hex.
    + destruct Hin as (Hact & _).
      pose proof (handleMove_marks e w Hact Hex) as Hm.
      apply (moves_moved_sticky moves) in Hm.
      congruence.
    + destruct (handleMove_within e w Hin Hex) as [Hin' Hc].
      destruct (handleMove_frame e w) as (_ & Hh & Ht & Hn & Hp & Hl).
      specialize (IH _ Hin' Hend).
      destruct IH as (I1 & I2 & I3 & I4 & I5 & I6 & I7).
      split; [exact I1 |]. repeat split; congruence.
Qed.

Lemma attempts_not_due (attempts : list (TimerId * Z)) (w : World) :
  Forall (fun a => Forall (fun t => snd a < due t) (timers w)) attempts ->
  runOps w (map (fun a => OpTimer (fst a) (snd a)) attempts) = w.
Proof.
  induction attempts as [| a attempts IH]; intros H; simpl; [reflexivity |].
  inversion H as [| ? ? Ha Hrest]; subst.
  rewrite (timerFires_not_due (fst a) (snd a) w Ha). simpl.
  apply IH. assumption.
Qed.

(** A whole tap-eligible gesture up to, but not including, its end. *)
Lemma tap_gesture_quiet (w : World) (d : Event) (moves : list Event) :
  let w' := runOps w (OpStart d :: map OpMove moves) in
  hasActuallyDragged (state w') = false ->
  withinTap w'
  /\ calls w' = calls w
  /\ handlers w' = handlers w
  /\ timers w' = timers w
  /\ nextTimerId w' = nextTimerId w
  /\ tapTimeout (state w') = tapTimeout (state w)
  /\ lastTapTime (state w') = lastTapTime (state w).
Proof.
  intros w' Hend. subst w'. rewrite runOps_cons in *.
  change (runOp w (OpStart d)) with (snd (handleStart d w)) in *.
  exact (tap_moves_quiet moves _ (withinTap_start d w) Hend).
Qed.

(** C8. Two tap-eligible gestures whose ends are 150 ms apart, the first
    one not itself completing a double-tap, with an [onDoubleTap] callback
    installed: the only callback invoked is [onDoubleTap], once; the
    confirmation timer of the first tap, which cannot fire before its 300
    ms have elapsed, is cancelled by the second end, so no timer is left
    and [onTap] cannot fire afterwards either. *)
Theorem C8_two_taps_one_double_tap
        (w0 : World) (d1 : Event) (moves1 : list Event) (u1 : Event) (t1 : Z)
        (attempts : list (TimerId * Z))
        (d2 : Event) (moves2 : list Event) (u2 : Event)
        (f : unit -> Completion JsValue) :
  wf w0 ->
  onDoubleTap (handlers w0) = Some f ->
  inDoubleTapWindow t1 (state w0) = false ->
  let wa := runOps w0 (OpStart d1 :: map OpMove moves1) in
  hasActuallyDragged (state wa) = false ->
  let w1 := runOp wa (OpEnd u1 t1) in
  Forall (fun a => snd a < t1 + TAP_DELAY) attempts ->
  let wb :=
    runOps w1 (map (fun a => OpTimer (fst a) (snd a)) attempts
               ++ OpStart d2 :: map OpMove moves2) in
  hasActuallyDragged (state wb) = false ->
  let w2 := runOp wb (OpEnd u2 (t1 + 150)) in
  calls w2 = calls w0 ++ [CallDoubleTap]
  /\ timers w2 = []
  /\ (forall id now, runOp w2 (OpTimer id now) = w2).
Proof.
  intros Hwf Hf Hwin wa Ha w1 Hatt wb Hb w2.
  (* first gesture *)
  destruct (tap_gesture_quiet w0 d1 moves1 Ha)
    as ((Hact & Hflag & _) & Hca & Hha & Hta & Hna & Hpa & Hla).
  fold wa in Hact, Hflag, Hca, Hha, Hta, Hna, Hpa, Hla.
  assert (Hwfa : wf wa) by (apply wf_runOps; assumption).
  assert (Hwina : inDoubleTapWindow t1 (state wa) = false)
    by (unfold inDoubleTapWindow in *; rewrite Hla; assumption).
  pose proof (handleEnd_tap u1 t1 wa Hact Hflag Hwina) as H1.
  rewrite (wf_cancelPending wa Hwfa) in H1. simpl in H1.
  assert (Hw1 : w1 = snd (handleEnd u1 t1 wa)) by reflexivity.
  rewrite H1 in Hw1. simpl in Hw1.
  (* timer attempts before the confirmation is due *)
  assert (Hidle : runOps w1 (map (fun a => OpTimer (fst a) (snd a)) attempts) = w1).
  { apply attempts_not_due. revert Hatt. apply Forall_impl.
    intros a Hlt. rewrite Hw1. simpl. constructor; [simpl; lia | constructor]. }
  (* second gesture *)
  unfold wb in Hb. rewrite runOps_app, Hidle in Hb.
  destruct (tap_gesture_quiet w1 d2 moves2 Hb)
    as ((Hactb & Hflagb & _) & Hcb & Hhb & Htb & Hnb & Hpb & Hlb).
  assert (Hwb : wb = runOps w1 (OpStart d2 :: map OpMove moves2))
    by (unfold wb; rewrite runOps_app, Hidle; reflexivity).
  rewrite <- Hwb in Hactb, Hflagb, Hcb, Hhb, Htb, Hnb, Hpb, Hlb.
  rewrite Hw1 in Hcb, Hhb, Htb, Hpb, Hlb. simpl in Hcb, Hhb, Htb, Hpb, Hlb.
  assert (Hwinb : inDoubleTapWindow (t1 + 150) (state wb) = true).
  { unfold inDoubleTapWindow. rewrite Hlb.
    replace (t1 + 150 - t1) with 150 by lia. reflexivity. }
  pose proof (handleEnd_doubleTap u2 (t1 + 150) wb Hactb Hflagb Hwinb) as H2.
  simpl in H2. rewrite Hhb, Hha, Hf, Hpb, Htb, Hcb, Hca in H2.
  simpl in H2. rewrite Pos.eqb_refl in H2. simpl in H2.
  assert (Hw2 : w2 = snd (handleEnd u2 (t1 + 150) wb)) by reflexivity.
  rewrite H2 in Hw2.
  assert (Hgoal : calls w2 = calls w0 ++ [CallDoubleTap] /\ timers w2 = [])
    by (rewrite Hw2; destruct (f tt); split; reflexivity).
  destruct Hgoal as [Hc Ht]. repeat split; try assumption.
  intros id now. simpl. rewrite (timerFires_idle id now w2 Ht). reflexivity.
Qed.

(** * Double taps *)

Lemma inDoubleTapWindow_iff (now : Z) (s : GestureState) :
  inDoubleTapWindow now s = true <-> 0 < now - lastTapTime s < TAP_DELAY.
Proof.
  unfold inDoubleTapWindow. rewrite andb_true_iff, Z.ltb_lt, Z.gtb_ltb, Z.ltb_lt.
  lia.
Qed.

(** Every path of [handleEnd] that returns a gesture records the end
    time, the drag path included. *)
Lemma handleEnd_records (e : Event) (now : Z) (w w' : World) (g : Gesture) :
  handleEnd e now w = (Normal (Some g), w') -> lastTapTime (state w') = now.
Proof.
  world w. run_method. simpl. split_paths; intros H; inversion H; reflexivity.
Qed.

Lemma quiet_ops_keep_lastTapTime (os : list Op) :
  forall w : World,
    Forall (fun o => match o with OpEnd _ _ => False | _ => True end) os ->
    lastTapTime (state (runOps w os)) = lastTapTime (state w).
Proof.
  induction os as [| o os IH]; intros w H; simpl; [reflexivity |].
  inversion H as [| ? ? Ho Hrest]; subst.
  rewrite (IH _ Hrest). destruct o; simpl.
  - reflexivity.
  - apply handleMove_frame.
  - contradiction.
  - apply timerFires_frame.
Qed.

Lemma handleEnd_calls (e : Event) (now : Z) (w : World) :
  calls (snd (handleEnd e now w)) = calls w ++ endCalls e now w.
Proof.
  world w. cbv [endCalls inDoubleTapWindow]. run_method. simpl.
  split_paths; rewrite ?app_nil_r; reflexivity.
Qed.

Lemma endCalls_doubleTap (e : Event) (now : Z) (w : World) :
  endCalls e now w = [CallDoubleTap] <->
  isDragging (state w) = true
  /\ hasActuallyDragged (state w) = false
  /\ inDoubleTapWindow now (state w) = true
  /\ onDoubleTap (handlers w) <> None.
Proof.
  unfold endCalls.
  destruct (isDragging (state w)), (hasActuallyDragged (state w)); simpl;
    try (split; [discriminate | intros (? & ? & _); discriminate]).
  - destruct (_ >? _); [destruct (onDrag (handlers w)) |];
      (split; [discriminate | intros (_ & ? & _); discriminate]).
  - destruct (inDoubleTapWindow now (state w));
      [destruct (onDoubleTap (handlers w)) |].
    + split; [intros _; repeat split; discriminate | reflexivity].
    + split; [discriminate | intros (_ & _ & _ & H); contradiction].
    + split; [discriminate | intros (_ & _ & H & _); discriminate].
Qed.

(** C3 (amended). [handleEnd] invokes [onDoubleTap] exactly when the
    gesture ending now is active and tap-eligible, a callback is
    installed, and the previously completed gesture, whatever its kind
    (tap, double-tap or drag), ended within the window:
    [0 < elapsed < TAP_DELAY]. *)
Theorem C3_double_tap_after_any_gesture
        (w : World) (e1 : Event) (t1 : Z) (g : Gesture) (w1 : World)
        (mids : list Op) (e2 : Event) (t2 : Z) :
  handleEnd e1 t1 w = (Normal (Some g), w1) ->
  Forall (fun o => match o with OpEnd _ _ => False | _ => True end) mids ->
  let w2 := runOps w1 mids in
  let w3 := snd (handleEnd e2 t2 w2) in
  calls w3 = calls w2 ++ [CallDoubleTap] <->
  (isDragging (state w2) = true
   /\ hasActuallyDragged (state w2) = false
   /\ 0 < t2 - t1 < TAP_DELAY
   /\ onDoubleTap (handlers w2) <> None).
Proof.
  intros Hend Hmids w2 w3. subst w3.
  rewrite handleEnd_calls.
  assert (Hlast : lastTapTime (state w2) = t1).
  { unfold w2. rewrite (quiet_ops_keep_lastTapTime mids w1 Hmids).
    exact (handleEnd_records e1 t1 w w1 g Hend). }
  rewrite <- Hlast, <- inDoubleTapWindow_iff, <- endCalls_doubleTap.
  split; [apply app_inv_head | intros ->; reflexivity].
Qed.

(** * Starting a gesture while a tap is pending *)

Lemma handleEnd_cancels_scheduled (e : Event) (now : Z) (w w' : World)
      (g : Gesture) (t : Timer) :
  wf w ->
  handleEnd e now w = (Normal (Some g), w') ->
  In t (timers w) -> ~ In t (timers w').
Proof.
  intros Hwf Hend Hin.
  pose proof (wf_cancelPending w Hwf) as Hnone.
  destruct (isDragging (state w)) eqn:Hact.
  2: { rewrite (handleEnd_inactive e now w Hact) in Hend. discriminate. }
  destruct (hasActuallyDragged (state w)) eqn:Hmoved.
  - destruct (Z.le_gt_cases (Z.abs (screenX e - startX (state w))) DRAG_THRESHOLD)
      as [Hshort | Hlong].
    { rewrite (handleEnd_drag_quiet e now w Hact Hmoved (or_introl Hshort)) in Hend.
      inversion Hend; subst. simpl. rewrite Hnone. intros []. }
    destruct (onDrag (handlers w)) as [f |] eqn:Hf.
    + rewrite (handleEnd_drag_fire e now w f Hact Hmoved Hlong Hf) in Hend.
      destruct (f _); [| discriminate].
      inversion Hend; subst. simpl. rewrite Hnone. intros [].
    + rewrite (handleEnd_drag_quiet e now w Hact Hmoved (or_intror Hf)) in Hend.
      inversion Hend; subst. simpl. rewrite Hnone. intros [].
  - destruct (inDoubleTapWindow now (state w)) eqn:Hwin.
    + rewrite (handleEnd_doubleTap e now w Hact Hmoved Hwin) in Hend.
      destruct (onDoubleTap (handlers w)) as [f |];
        [destruct (f tt); [| discriminate] |];
        inversion Hend; subst; simpl; rewrite Hnone; intros [].
    + rewrite (handleEnd_tap e now w Hact Hmoved Hwin) in Hend.
      inversion Hend; subst. simpl. rewrite Hnone. simpl.
      intros [Heq | []]. subst t.
      destruct Hwf as [_ Hfresh]. rewrite Forall_forall in Hfresh.
      specialize (Hfresh _ Hin). simpl in Hfresh. lia.
Qed.

Lemma moves_keep_pending (moves : list Event) :
  forall w : World,
    let w' := runOps w (map OpMove moves) in
    timers w' = timers w
    /\ tapTimeout (state w') = tapTimeout (state w)
    /\ handlers w' = handlers w.
Proof.
  induction moves as [| e moves IH]; intros w; [repeat split |].
  change (map OpMove (e :: moves)) with (OpMove e :: map OpMove moves).
  rewrite runOps_cons.
  change (runOp w (OpMove e)) with (snd (handleMove e w)).
  destruct (handleMove_frame e w) as (_ & Hh & Ht & _ & Hp & _).
  destruct (IH (snd (handleMove e w))) as (I1 & I2 & I3).
  repeat split; congruence.
Qed.

(** C1 (amended). With a single-tap timer pending, [handleStart] does not
    cancel it: the timer stays scheduled, [tapTimeout] still names it and
    no callback fires; the move samples of the new gesture leave it
    scheduled as well.  If the timer comes due while the new gesture is
    under way, [onTap] is invoked for the earlier tap.  Whenever the new
    gesture's [handleEnd] returns a gesture (['drag'], ['double-tap'] or
    ['tap']), the earlier timer is no longer scheduled. *)
Theorem C1_start_keeps_pending_tap
        (w : World) (t : Timer) (d : Event) (moves : list Event)
        (f : Z -> Completion JsValue) :
  wf w ->
  timers w = [t] ->
  onTap (handlers w) = Some f ->
  let w' := snd (handleStart d w) in
  let w'' := runOps w' (map OpMove moves) in
  timers w' = [t]
  /\ tapTimeout (state w') = Some (timerId t)
  /\ calls w' = calls w
  /\ timers w'' = [t]
  /\ tapTimeout (state w'') = Some (timerId t)
  /\ (forall now, due t <= now ->
      calls (snd (timerFires (timerId t) now w''))
      = calls w'' ++ [CallTap (tapClientX t)])
  /\ (forall e now g w2,
         handleEnd e now w'' = (Normal (Some g), w2) -> ~ In t (timers w2)).
Proof.
  intros Hwf Ht Hf w' w''.
  assert (Hp : tapTimeout (state w) = Some (timerId t)).
  { destruct Hwf as [Hp _]. unfold pendingOK in Hp. rewrite Ht in Hp. exact Hp. }
  destruct (moves_keep_pending moves w') as (Mt & Mp & Mh).
  fold w'' in Mt, Mp, Mh.
  assert (Ht'' : timers w'' = [t]) by (rewrite Mt; exact Ht).
  assert (Hwf'' : wf w'')
    by (apply wf_runOps; apply wf_handleStart; assumption).
  repeat split; try assumption.
  - rewrite Mp. exact Hp.
  - intros now Hdue.
    assert (Hf'' : onTap (handlers w'') = Some f) by (rewrite Mh; exact Hf).
    destruct (timerFires_due t now w'' f Ht'' Hdue Hf'') as [Hc _]. exact Hc.
  - intros e now g w2 Hend.
    apply (handleEnd_cancels_scheduled e now w'' w2 g t Hwf'' Hend).
    rewrite Ht''. left. reflexivity.
Qed.

(** * The listeners *)

Lemma listener_keeps_lastTouchTime (sf : Surface) (e : Event) (now : Z) (w : World) :
  type e <> touchend ->
  lastTouchTime (snd (listener sf e now w)) = lastTouchTime w.
Proof.
  intros Hty. unfold listener.
  destruct (ignored sf e); [reflexivity |].
  destruct (type e) eqn:Ht; try contradiction.
  - reflexivity.
  - unfold bind, ret.
    pose proof (handleMove_frame e w) as (Hl & _).
    destruct (handleMove e w) as [[r |] w']; exact Hl.
  - unfold bind, ret, getLastTouchTime.
    destruct (now - lastTouchTime w <? 500); reflexivity.
  - unfold bind, ret.
    pose proof (handleMove_frame e w) as (Hl & _).
    destruct (handleMove e w) as [[r |] w']; exact Hl.
  - unfold bind, ret, getLastTouchTime.
    destruct (now - lastTouchTime w <? 500); [reflexivity |].
    pose proof (handleEnd_frame e now w) as (Hl & _).
    destruct (handleEnd e now w) as [[r |] w']; exact Hl.
  - unfold bind, ret, getLastTouchTime, invoke.
    destruct (now - lastTouchTime w <? 500); [reflexivity |].
    destruct (onDoubleTap (callbacks sf)) as [f |]; [destruct (f tt) |];
      reflexivity.
Qed.

Lemma deliverAll_keeps_lastTouchTime (sf : Surface) (inputs : list Input) :
  forall w : World,
    Forall (fun i => match i with
                     | Dom e _ => type e <> touchend
                     | TimerDue _ _ => True
                     end) inputs ->
    lastTouchTime (deliverAll sf w inputs) = lastTouchTime w.
Proof.
  induction inputs as [| i inputs IH]; intros w H; [reflexivity |].
  inversion H as [| ? ? Hi Hrest]; subst.
  change (deliverAll sf w (i :: inputs))
    with (deliverAll sf (deliver sf w i) inputs).
  rewrite (IH _ Hrest).
  destruct i as [e now | id now]; simpl.
  - apply listener_keeps_lastTouchTime. assumption.
  - apply timerFires_frame.
Qed.

(** A processed touch end records its time. *)
Lemma touchend_records (sf : Surface) (e : Event) (now : Z) (w w' : World)
      (b : bool) :
  type e = touchend ->
  ignored sf e = false ->
  listener sf e now w = (Normal b, w') ->
  lastTouchTime w' = now.
Proof.
  intros Hty Hig. unfold listener. rewrite Hig, Hty.
  unfold bind, ret, setLastTouchTime.
  destruct (handleEnd e now w) as [[r |] w1]; intros H; inversion H; reflexivity.
Qed.

(** C6. After a touch end processed at [t0], and whatever is delivered in
    between short of another touch end, a mousedown, mouseup or dblclick
    arriving less than 500 ms after [t0] is ignored: the listener returns
    without calling [preventDefault] and the world (recognizer state,
    timers, callback log) is unchanged. *)
Theorem C6_mouse_after_touch_ignored
        (sf : Surface) (w : World) (te : Event) (t0 : Z) (b : bool) (w1 : World)
        (mids : list Input) (e : Event) (now : Z) :
  type te = touchend ->
  ignored sf te = false ->
  listener sf te t0 w = (Normal b, w1) ->
  Forall (fun i => match i with
                   | Dom e' _ => type e' <> touchend
                   | TimerDue _ _ => True
                   end) mids ->
  type e = mousedown \/ type e = mouseup \/ type e = dblclick ->
  now - t0 < 500 ->
  let w2 := deliverAll sf w1 mids in
  listener sf e now w2 = (Normal false, w2)
  /\ deliver sf w2 (Dom e now) = w2.
Proof.
  intros Hte Hig Hend Hmids Hty Hnear w2.
  assert (Hlast : lastTouchTime w2 = t0).
  { unfold w2. rewrite (deliverAll_keeps_lastTouchTime sf mids w1 Hmids).
    exact (touchend_records sf te t0 w w1 b Hte Hig Hend). }
  assert (Hl : listener sf e now w2 = (Normal false, w2)).
  { unfold listener. destruct (ignored sf e); [reflexivity |].
    assert (Hlt : (now - lastTouchTime w2 <? 500) = true)
      by (rewrite Hlast; apply Z.ltb_lt; assumption).
    destruct Hty as [-> | [-> | ->]];
      unfold bind, ret, getLastTouchTime; rewrite Hlt; reflexivity. }
  split; [exact Hl |]. simpl. rewrite Hl. reflexivity.
Qed.

(** * Callbacks that throw *)

Lemma handleMove_thrown (e : Event) (w : World) :
  fst (handleMove e w) = Thrown ->
  let w' := snd (handleMove e w) in
  accumulatedDistance (state w') = 0
  /\ lastX (state w') = screenX e
  /\ exists d, calls w' = calls w ++ [CallSwipe d].
Proof.
  world w. run_method. simpl.
  split_paths; intros H; try discriminate; repeat split; eexists; reflexivity.
Qed.

Lemma handleEnd_thrown (e : Event) (now : Z) (w : World) :
  fst (handleEnd e now w) = Thrown ->
  let w' := snd (handleEnd e now w) in
  isDragging (state w') = true
  /\ lastTapTime (state w') = lastTapTime (state w)
  /\ lastTouchTime w' = lastTouchTime w
  /\ (hasActuallyDragged (state w) = true ->
      state w' = state w /\ timers w' = timers w)
  /\ (hasActuallyDragged (state w) = false ->
      tapTimeout (state w') = None
      /\ timers w' = cancelPending (tapTimeout (state w)) (timers w)).
Proof.
  world w. run_method. simpl.
  split_paths; intros H; try discriminate; repeat split;
    intros; try discriminate; reflexivity.
Qed.

(** C5 (amended). When a callback throws, the exception leaves the
    listener and reaches the event dispatch.  [handleMove] has by then
    completed its own update (accumulator reset to 0, [lastX] advanced).
    [handleEnd] has not reset the state: the gesture is still active and
    neither [lastTapTime] nor [lastTouchTime] is recorded; on the drag
    path the state and the timers are exactly as before the call, on the
    double-tap path the pending tap timer has already been cancelled. *)
Theorem C5_throwing_callbacks
        (sf : Surface) (e : Event) (now : Z) (w : World) :
  ignored sf e = false ->
  (type e = touchmove ->
   fst (handleMove e w) = Thrown ->
   let w' := snd (handleMove e w) in
   listener sf e now w = (Thrown, w')
   /\ accumulatedDistance (state w') = 0
   /\ lastX (state w') = screenX e)
  /\ (type e = touchend ->
      fst (handleEnd e now w) = Thrown ->
      let w' := snd (handleEnd e now w) in
      listener sf e now w = (Thrown, w')
      /\ isDragging (state w') = true
      /\ lastTapTime (state w') = lastTapTime (state w)
      /\ lastTouchTime w' = lastTouchTime w
      /\ (hasActuallyDragged (state w) = true ->
          state w' = state w /\ timers w' = timers w)
      /\ (hasActuallyDragged (state w) = false ->
          tapTimeout (state w') = None
          /\ timers w' = cancelPending (tapTimeout (state w)) (timers w))).
Proof.
  intros Hig. split; intros Hty Hthrow w'.
  - destruct (handleMove_thrown e w Hthrow) as (Ha & Hl & _).
    repeat split; try assumption.
    unfold listener. rewrite Hig, Hty. unfold bind. subst w'.
    destruct (handleMove e w) as [[r |] w1]; [discriminate | reflexivity].
  - split; [| exact (handleEnd_thrown e now w Hthrow)].
    unfold listener. rewrite Hig, Hty. unfold bind. subst w'.
    destruct (handleEnd e now w) as [[r |] w1]; [discriminate | reflexivity].
Qed.


(** * Concrete runs *)

(** C1, as stated, fails.  A tap released at time 1000 leaves timer 1
    pending; a new [handleStart] at (200, 100) neither empties the timer
    queue nor keeps [onTap] from being invoked when the timer comes due at
    1300, while the new gesture is still active. *)
Lemma C1_start_does_not_cancel :
  let w := tapPending appSurface in
  let w' := snd (handleStart (ev touchstart 200 100) w) in
  let fired := snd (timerFires 1%positive 1300 w') in
  timers w = [mkTimer 1%positive 1300 100]
  /\ timers w' = [mkTimer 1%positive 1300 100]
  /\ isDragging (state fired) = true
  /\ calls fired = [CallTap 100]
  /\ ~ (timers w' = [] /\ calls fired = calls w).
Proof.
  vm_compute. repeat split; try reflexivity. intros [H _]. discriminate H.
Qed.

(** C2 fails on the code.  With the callbacks as the application installs
    them, a horizontal-dominant touchmove that fires a swipe makes
    [handleMove] return the callback's [undefined], so the listener does
    not call [preventDefault]; one pixel short of the threshold it does. *)
Theorem C2_swipe_move_not_suppressed :
  let w := snd (handleStart (ev touchstart 0 0) appWorld) in
  isDragging (state w) = true
  /\ horizontalDominant (startX (state w)) (startY (state w)) (ev touchmove 20 0) = true
  /\ handleMove (ev touchmove 20 0) w
     = (Normal JUndefined,
        withCalls [CallSwipe (-1)]
          (withState (mkState 0 0 20 0 true true 0 None) w))
  /\ fst (listener appSurface (ev touchmove 20 0) 1000 w) = Normal false
  /\ fst (listener appSurface (ev touchmove 19 0) 1000 w) = Normal true.
Proof. vm_compute. repeat split. Qed.

(** C3, as stated, fails.  A gesture that moved 60 px ends as a drag at
    time 1200; a tap released 100 ms later is reported as a double-tap
    and [onDoubleTap] is invoked, although the previous gesture was not
    tap-eligible. *)
Lemma C3_drag_then_tap_is_double_tap :
  let w1 := draggingAfterTap appSurface in
  let r1 := handleEnd (ev touchend 160 100) 1200 w1 in
  let w2 := snd (handleStart (ev touchstart 160 100) (snd r1)) in
  let r2 := handleEnd (ev touchend 160 100) 1300 w2 in
  hasActuallyDragged (state w1) = true
  /\ fst r1 = Normal (Some GDrag)
  /\ hasActuallyDragged (state w2) = false
  /\ fst r2 = Normal (Some GDoubleTap)
  /\ calls (snd r2) = calls w2 ++ [CallDoubleTap]
  /\ ~ (calls (snd r2) = calls w2 ++ [CallDoubleTap] ->
        hasActuallyDragged (state w1) = false).
Proof.
  vm_compute. repeat split; try reflexivity.
  intros H. specialize (H eq_refl). discriminate H.
Qed.

(** C4 fails on the code.  A desktop double-click delivers mousedown,
    mouseup, mousedown, mouseup, dblclick: the second mouseup is
    recognised as a double-tap by [handleEnd] and the dblclick listener
    invokes [onDoubleTap] again. *)
Theorem C4_double_click_fires_twice :
  calls (deliverAll appSurface appWorld
           [Dom (ev mousedown 100 100) 1000; Dom (ev mouseup 100 100) 1010;
            Dom (ev mousedown 100 100) 1100; Dom (ev mouseup 100 100) 1160;
            Dom (ev dblclick 100 100) 1160])
  = [CallDoubleTap; CallDoubleTap].
Proof. vm_compute. reflexivity. Qed.

(** C5, as stated, fails.  With a tap pending and a 60 px drag under way,
    a touchend whose [onDrag] throws: the exception leaves the listener,
    the gesture is still active, the pending tap timer is still scheduled
    and the touch end time is not recorded. *)
Lemma C5_throwing_drag_leaves_state :
  let w := draggingAfterTap dragThrowsSurface in
  let r := listener dragThrowsSurface (ev touchend 160 100) 1200 w in
  fst r = Thrown
  /\ state (snd r) = state w
  /\ isDragging (state (snd r)) = true
  /\ timers (snd r) = [mkTimer 1%positive 1300 100]
  /\ lastTouchTime (snd r) = 0
  /\ calls (snd r) = calls w ++ [CallDrag (-1)]
  /\ ~ (fst r = Normal false /\ state (snd r) = mkState 0 0 0 0 false false 1200 None
        /\ timers (snd r) = []).
Proof.
  vm_compute. repeat split; try reflexivity. intros [H _]. discriminate H.
Qed.


(** C6, as stated, fails.  A touch end whose [onDrag] throws, or one on
    an excluded target, records no time: a mousedown or mouseup 3 ms
    later is processed. *)
Lemma C6_unrecorded_touch_end_opens_no_window :
  (let w := draggingAfterTap dragThrowsSurface in
   let w1 := snd (listener dragThrowsSurface (ev touchend 160 100) 1200 w) in
   let r := listener dragThrowsSurface (ev mousedown 300 300) 1203 w1 in
   lastTouchTime w1 = 0
   /\ fst r = Normal true
   /\ startX (state (snd r)) = 300
   /\ snd r <> w1)
  /\ (let v := snd (handleStart (ev touchstart 100 100)
                      (createGestureHandler excludingSurface)) in
      let v1 := snd (listener excludingSurface
                       (mkEvent touchend 100 100 100 1) 1200 v) in
      let r := listener excludingSurface (ev mouseup 100 100) 1203 v1 in
      lastTouchTime v1 = 0
      /\ isDragging (state v1) = true
      /\ isDragging (state (snd r)) = false
      /\ timers (snd r) = [mkTimer 1%positive 1503 100]
      /\ snd r <> v1).
Proof.
  split.
  - repeat split; try (vm_compute; reflexivity).
    intros H. apply (f_equal (fun w => startX (state w))) in H.
    vm_compute in H. discriminate H.
  - repeat split; try (vm_compute; reflexivity).
    intros H. apply (f_equal (fun w => isDragging (state w))) in H.
    vm_compute in H. discriminate H.
Qed.

(** C8, as stated, fails.  After a tap released at 1000, the pair of
    taps released at 1150 and 1300 is a pair of tap-eligible gestures
    150 ms apart, and [onDoubleTap] is invoked at both ends. *)
Lemma C8_third_quick_tap_is_a_second_double_tap :
  let w1 := tapPending appSurface in
  let wa := runOps w1 [OpStart (ev touchstart 100 100)] in
  let ra := handleEnd (ev touchend 100 100) 1150 wa in
  let wb := runOps (snd ra) [OpStart (ev touchstart 100 100)] in
  let rb := handleEnd (ev touchend 100 100) 1300 wb in
  hasActuallyDragged (state wa) = false
  /\ hasActuallyDragged (state wb) = false
  /\ fst ra = Normal (Some GDoubleTap)
  /\ fst rb = Normal (Some GDoubleTap)
  /\ calls (snd rb) = calls w1 ++ [CallDoubleTap; CallDoubleTap]
  /\ ~ (calls (snd rb) = calls w1 ++ [CallDoubleTap]).
Proof.
  vm_compute. repeat split; try reflexivity. intros H. discriminate H.
Qed.

(** * Instances *)

Lemma wf_appWorld : wf appWorld.
Proof. apply wf_idle. reflexivity. Qed.

Lemma wf_tapPending : wf (tapPending appSurface).
Proof.
  unfold tapPending. apply wf_runOps. apply wf_idle. reflexivity.
Qed.

(** The pending tap of [tapPending] survives a new start at (200, 100)
    and a move to (260, 100), and is gone once that drag has ended. *)
Lemma C1_start_keeps_pending_tap_witness :
  let t := mkTimer 1%positive 1300 100 in
  let w' := snd (handleStart (ev touchstart 200 100) (tapPending appSurface)) in
  let w'' := runOps w' (map OpMove [ev touchmove 260 100]) in
  timers w' = [t]
  /\ tapTimeout (state w') = Some (timerId t)
  /\ calls w' = calls (tapPending appSurface)
  /\ timers w'' = [t]
  /\ tapTimeout (state w'') = Some (timerId t)
  /\ (forall now, due t <= now ->
      calls (snd (timerFires (timerId t) now w''))
      = calls w'' ++ [CallTap (tapClientX t)])
  /\ (forall e now g w2,
         handleEnd e now w'' = (Normal (Some g), w2) -> ~ In t (timers w2)).
Proof.
  exact (C1_start_keeps_pending_tap
           (tapPending appSurface) (mkTimer 1%positive 1300 100)
           (ev touchstart 200 100) [ev touchmove 260 100]
           (fun _ => Normal JUndefined)
           wf_tapPending eq_refl eq_refl).
Defined.

(** A drag ended at 1200, then a tap released at 1300. *)
Lemma C3_double_tap_after_any_gesture_witness :
  let w := draggingAfterTap appSurface in
  let w1 := snd (handleEnd (ev touchend 160 100) 1200 w) in
  let w2 := runOps w1 [OpStart (ev touchstart 160 100)] in
  let w3 := snd (handleEnd (ev touchend 160 100) 1300 w2) in
  calls w3 = calls w2 ++ [CallDoubleTap] <->
  (isDragging (state w2) = true
   /\ hasActuallyDragged (state w2) = false
   /\ 0 < 1300 - 1200 < TAP_DELAY
   /\ onDoubleTap (handlers w2) <> None).
Proof.
  apply (C3_double_tap_after_any_gesture
           (draggingAfterTap appSurface) (ev touchend 160 100) 1200 GDrag
           (snd (handleEnd (ev touchend 160 100) 1200 (draggingAfterTap appSurface)))
           [OpStart (ev touchstart 160 100)] (ev touchend 160 100) 1300).
  - vm_compute. reflexivity.
  - repeat constructor.
Defined.

(** The throwing [onDrag] of [dragThrowsSurface] at the end of a drag. *)
Lemma C5_throwing_callbacks_witness :
  let w := draggingAfterTap dragThrowsSurface in
  let e := ev touchend 160 100 in
  let w' := snd (handleEnd e 1200 w) in
  listener dragThrowsSurface e 1200 w = (Thrown, w')
  /\ isDragging (state w') = true
  /\ lastTapTime (state w') = lastTapTime (state w)
  /\ lastTouchTime w' = lastTouchTime w
  /\ (hasActuallyDragged (state w) = true ->
      state w' = state w /\ timers w' = timers w)
  /\ (hasActuallyDragged (state w) = false ->
      tapTimeout (state w') = None
      /\ timers w' = cancelPending (tapTimeout (state w)) (timers w)).
Proof.
  apply (proj2 (C5_throwing_callbacks
                  dragThrowsSurface (ev touchend 160 100) 1200
                  (draggingAfterTap dragThrowsSurface) eq_refl)).
  - reflexivity.
  - vm_compute. reflexivity.
Defined.

(** A touch tap released at 1000, a stray mousemove, then the synthetic
    mousedown 3 ms after the touch end. *)
Lemma C6_mouse_after_touch_ignored_witness :
  let w := snd (handleStart (ev touchstart 100 100) appWorld) in
  let w1 := snd (listener appSurface (ev touchend 100 100) 1000 w) in
  let w2 := deliverAll appSurface w1 [Dom (ev mousemove 100 100) 1002] in
  listener appSurface (ev mousedown 100 100) 1003 w2 = (Normal false, w2)
  /\ deliver appSurface w2 (Dom (ev mousedown 100 100) 1003) = w2.
Proof.
  apply (C6_mouse_after_touch_ignored
           appSurface (snd (handleStart (ev touchstart 100 100) appWorld))
           (ev touchend 100 100) 1000 false
           (snd (listener appSurface (ev touchend 100 100) 1000
                   (snd (handleStart (ev touchstart 100 100) appWorld))))
           [Dom (ev mousemove 100 100) 1002] (ev mousedown 100 100) 1003).
  - reflexivity.
  - reflexivity.
  - vm_compute. reflexivity.
  - repeat constructor. discriminate.
  - left. reflexivity.
  - lia.
Defined.


(** Two taps at (100, 100), released at 1000 and 1150, with a timer
    attempt at 1100 in between. *)
Lemma C8_two_taps_one_double_tap_witness :
  let wa := runOps appWorld
              (OpStart (ev touchstart 100 100)
               :: map OpMove [ev touchmove 102 101]) in
  let w1 := runOp wa (OpEnd (ev touchend 102 101) 1000) in
  let wb :=
    runOps w1 (map (fun a => OpTimer (fst a) (snd a)) [(1%positive, 1100)]
               ++ OpStart (ev touchstart 101 100) :: map OpMove []) in
  let w2 := runOp wb (OpEnd (ev touchend 101 100) (1000 + 150)) in
  calls w2 = calls appWorld ++ [CallDoubleTap]
  /\ timers w2 = []
  /\ (forall id now, runOp w2 (OpTimer id now) = w2).
Proof.
  apply (C8_two_taps_one_double_tap
           appWorld (ev touchstart 100 100) [ev touchmove 102 101]
           (ev touchend 102 101) 1000 [(1%positive, 1100)]
           (ev touchstart 101 100) [] (ev touchend 101 100)
           (fun _ => Normal JUndefined)).
  - exact wf_appWorld.
  - reflexivity.
  - reflexivity.
  - reflexivity.
  - repeat constructor.
  - vm_compute. reflexivity.
Defined.

(** From (0, 0): samples at (3, 30) and (-10, 60). *)
Lemma C9_vertical_moves_never_swipe_witness :
  let w := runOps (runOp appWorld (OpStart (ev touchstart 0 0)))
                  (map OpMove (firstn 2 [ev touchmove 3 30; ev touchmove (-10) 60])) in
  calls w = calls appWorld /\ accumulatedDistance (state w) = 0.
Proof.
  apply (C9_vertical_moves_never_swipe
           appWorld (ev touchstart 0 0)
           [ev touchmove 3 30; ev touchmove (-10) 60] 2).
  repeat constructor.
Defined.

(** A gesture that wandered 30 px down and ends 10 px right of its start,
    with a tap pending. *)
Lemma C10_short_drag_is_silent_witness :
  let w := runOps (tapPending appSurface)
                  [OpStart (ev touchstart 0 0); OpMove (ev touchmove 0 30)] in
  let r := handleEnd (ev touchend 10 30) 1200 w in
  fst r = Normal (Some GDrag)
  /\ calls (snd r) = calls w
  /\ state (snd r) = mkState 0 0 0 0 false false 1200 None
  /\ timers (snd r) = cancelPending (tapTimeout (state w)) (timers w)
  /\ (wf w -> timers (snd r) = []).
Proof.
  apply (C10_short_drag_is_silent
           (ev touchend 10 30) 1200
           (runOps (tapPending appSurface)
                   [OpStart (ev touchstart 0 0); OpMove (ev touchmove 0 30)])).
  - reflexivity.
  - reflexivity.
  - vm_compute. discriminate.
Defined.

(** * Further properties of the recognizer *)

Lemma snd_bind {A B} (m : M A) (k : A -> M B) (w : World) (P : World -> Prop) :
  P (snd (m w)) ->
  (forall a w', P w' -> P (snd (k a w'))) ->
  P (snd (bind m k w)).
Proof.
  intros Hm Hk. unfold bind. destruct (m w) as [[a |] w']; simpl in *.
  - apply Hk. assumption.
  - assumption.
Qed.

Lemma wf_listener (sf : Surface) (e : Event) (now : Z) (w : World) :
  wf w -> wf (snd (listener sf e now w)).
Proof.
  intros Hwf. unfold listener.
  destruct (ignored sf e); [assumption |].
  destruct (type e).
  - apply snd_bind; [apply wf_handleStart; assumption | trivial].
  - apply snd_bind; [apply wf_handleMove; assumption | trivial].
  - apply snd_bind; [apply wf_handleEnd; assumption |].
    intros _ w' Hw'. apply snd_bind; [| trivial].
    revert Hw'. apply wf_frame; reflexivity.
  - apply snd_bind; [assumption |]. intros t w' Hw'.
    destruct (now - t <? 500); [assumption |].
    apply snd_bind; [apply wf_handleStart; assumption | trivial].
  - apply snd_bind; [apply wf_handleMove; assumption | trivial].
  - apply snd_bind; [assumption |]. intros t w' Hw'.
    destruct (now - t <? 500); [assumption |].
    apply snd_bind; [apply wf_handleEnd; assumption | trivial].
  - apply snd_bind; [assumption |]. intros t w' Hw'.
    destruct (now - t <? 500); [assumption |].
    apply snd_bind; [| trivial].
    destruct (onDoubleTap (callbacks sf)) as [f |]; [| assumption].
    apply snd_bind; [| trivial].
    revert Hw'. apply wf_frame; reflexivity.
Qed.

Lemma wf_deliverAll (sf : Surface) (inputs : list Input) :
  forall w : World, wf w -> wf (deliverAll sf w inputs).
Proof.
  induction inputs as [| i inputs IH]; intros w Hwf; [assumption |].
  change (deliverAll sf w (i :: inputs))
    with (deliverAll sf (deliver sf w i) inputs).
  apply IH. destruct i as [e now | id now]; simpl.
  - apply wf_listener. assumption.
  - apply wf_timerFires. assumption.
Qed.

(** X1. Whatever events and timer expiries reach an attached handler, and
    whether or not callbacks throw, at most one tap confirmation is
    scheduled at any time, [state.tapTimeout] names it, and its id was
    issued before the next one to be issued. *)
Theorem X1_at_most_one_pending_tap (sf : Surface) (inputs : list Input) :
  let w := deliverAll sf (createGestureHandler sf) inputs in
  (length (timers w) <= 1)%nat
  /\ Forall (fun t => tapTimeout (state w) = Some (timerId t)
                      /\ (timerId t < nextTimerId w)%positive) (timers w).
Proof.
  intros w.
  assert (Hwf : wf w) by (apply wf_deliverAll; apply wf_idle; reflexivity).
  destruct Hwf as [Hp Hfresh]. unfold pendingOK in Hp.
  destruct (timers w) as [| t [| t' ts]]; try contradiction.
  - split; [simpl; lia | constructor].
  - split; [simpl; lia |].
    inversion Hfresh; subst. constructor; [split; assumption | constructor].
Qed.

(** X2. A tap-eligible gesture that ends outside the double-tap window
    invokes nothing at once.  Its confirmation cannot fire before
    [TAP_DELAY] has elapsed; when it fires, [onTap] is invoked once with
    the [clientX] of the release, no timer is left, and (if [onTap]
    returns) [tapTimeout] is cleared. *)
Theorem X2_single_tap_confirmed_after_delay
        (w : World) (e : Event) (now : Z) (f : Z -> Completion JsValue) :
  wf w ->
  isDragging (state w) = true ->
  hasActuallyDragged (state w) = false ->
  inDoubleTapWindow now (state w) = false ->
  onTap (handlers w) = Some f ->
  let w1 := snd (handleEnd e now w) in
  fst (handleEnd e now w) = Normal (Some GTap)
  /\ calls w1 = calls w
  /\ (forall id t, t < now + TAP_DELAY -> runOp w1 (OpTimer id t) = w1)
  /\ (forall t, now + TAP_DELAY <= t ->
      let w2 := runOp w1 (OpTimer (nextTimerId w) t) in
      calls w2 = calls w ++ [CallTap (clientX e)]
      /\ timers w2 = []
      /\ (f (clientX e) <> Thrown -> tapTimeout (state w2) = None)
      /\ (forall id t', runOp w2 (OpTimer id t') = w2)).
Proof.
  intros Hwf Hact Hflag Hwin Hf w1. subst w1.
  rewrite (handleEnd_tap e now w Hact Hflag Hwin).
  rewrite (wf_cancelPending w Hwf). simpl.
  split; [reflexivity |]. split; [reflexivity |]. split.
  - intros id t Hlt. rewrite timerFires_not_due; [reflexivity |].
    simpl. constructor; [simpl; lia | constructor].
  - intros t Hdue. cbv zeta.
    set (w1 := mkWorld _ _ _ _ _ _).
    set (tm := mkTimer (nextTimerId w) (now + TAP_DELAY) (clientX e)).
    destruct (timerFires_due tm t w1 f eq_refl Hdue Hf) as [Hc Ht].
    change (timerId tm) with (nextTimerId w) in Hc, Ht.
    repeat split.
    + exact Hc.
    + exact Ht.
    + intros Hok. unfold timerFires, findTimer. simpl.
      rewrite Pos.eqb_refl. simpl.
      destruct (Z.leb_spec (now + TAP_DELAY) t); [| lia].
      world w. subst. run_method. simpl. rewrite Pos.eqb_refl, Hf. simpl.
      destruct (f (clientX e)); [reflexivity | contradiction].
    + intros id t'. simpl. rewrite timerFires_idle; [reflexivity | exact Ht].
Qed.

(** X3. A gesture that moved and whose net horizontal displacement
    exceeds the drag threshold invokes [onDrag] once, with the negated
    sign of the displacement; when the callback returns, [handleEnd]
    returns ['drag'], the state is reset with the end time recorded, and
    no tap confirmation is left pending. *)
Theorem X3_long_drag_fires_onDrag
        (w : World) (e : Event) (now : Z)
        (f : Z -> Completion JsValue) (v : JsValue) :
  wf w ->
  isDragging (state w) = true ->
  hasActuallyDragged (state w) = true ->
  DRAG_THRESHOLD < Z.abs (screenX e - startX (state w)) ->
  onDrag (handlers w) = Some f ->
  f (- Z.sgn (screenX e - startX (state w))) = Normal v ->
  let r := handleEnd e now w in
  fst r = Normal (Some GDrag)
  /\ calls (snd r) = calls w ++ [CallDrag (- Z.sgn (screenX e - startX (state w)))]
  /\ state (snd r) = mkState 0 0 0 0 false false now None
  /\ timers (snd r) = [].
Proof.
  intros Hwf Hact Hmoved Hlong Hf Hv r. subst r.
  rewrite (handleEnd_drag_fire e now w f Hact Hmoved Hlong Hf).
  rewrite directionOf_sgn by (cbv [DRAG_THRESHOLD] in Hlong; lia).
  rewrite Hv. simpl. repeat split. apply wf_cancelPending. assumption.
Qed.

Lemma handleMove_keeps_origin (e : Event) (w : World) :
  let w' := snd (handleMove e w) in
  isDragging (state w') = isDragging (state w)
  /\ startX (state w') = startX (state w)
  /\ startY (state w') = startY (state w).
Proof.
  world w. run_method. simpl. split_paths; repeat split; reflexivity.
Qed.

Lemma moves_keep_origin (moves : list Event) :
  forall w : World,
    let w' := runOps w (map OpMove moves) in
    isDragging (state w') = isDragging (state w)
    /\ startX (state w') = startX (state w)
    /\ startY (state w') = startY (state w)
    /\ nextTimerId w' = nextTimerId w
    /\ timers w' = timers w.
Proof.
  induction moves as [| e moves IH]; intros w; [repeat split |].
  change (map OpMove (e :: moves)) with (OpMove e :: map OpMove moves).
  rewrite runOps_cons.
  change (runOp w (OpMove e)) with (snd (handleMove e w)).
  destruct (handleMove_keeps_origin e w) as (H1 & H2 & H3).
  destruct (handleMove_frame e w) as (_ & _ & Ht & Hn & _).
  destruct (IH (snd (handleMove e w))) as (I1 & I2 & I3 & I4 & I5).
  repeat split; congruence.
Qed.

(** Once a sample has exceeded the movement threshold, the flag is set at
    the end of the moves. *)
Lemma moves_mark (moves : list Event) :
  forall w : World,
    isDragging (state w) = true ->
    Exists (fun m => exceedsMovement (startX (state w)) (startY (state w)) m = true)
           moves ->
    hasActuallyDragged (state (runOps w (map OpMove moves))) = true.
Proof.
  induction moves as [| e moves IH]; intros w Hact Hex; [inversion Hex |].
  change (map OpMove (e :: moves)) with (OpMove e :: map OpMove moves).
  rewrite runOps_cons.
  change (runOp w (OpMove e)) with (snd (handleMove e w)).
  inversion Hex as [? ? Hhere | ? ? Hlater]; subst.
  - apply moves_moved_sticky. apply handleMove_marks; assumption.
  - destruct (handleMove_keeps_origin e w) as (H1 & H2 & H3).
    apply IH; [congruence |]. rewrite H2, H3. assumption.
Qed.

(** X4. A gesture one of whose samples lay more than the movement
    threshold away from its start, in either axis, never ends as a tap or
    a double-tap: [handleEnd] returns ['drag'] (or an [onDrag] exception
    escapes), schedules no tap confirmation, and the only callback it can
    invoke is [onDrag]. *)
Theorem X4_moved_gesture_is_never_a_tap
        (w0 : World) (d : Event) (moves : list Event) (u : Event) (now : Z) :
  Exists (fun m => exceedsMovement (screenX d) (screenY d) m = true) moves ->
  let w := runOps w0 (OpStart d :: map OpMove moves) in
  let r := handleEnd u now w in
  (fst r = Normal (Some GDrag) \/ fst r = Thrown)
  /\ nextTimerId (snd r) = nextTimerId w0
  /\ (calls (snd r) = calls w
      \/ exists dir, calls (snd r) = calls w ++ [CallDrag dir]).
Proof.
  intros Hex w r.
  assert (Hw : w = runOps (snd (handleStart d w0)) (map OpMove moves))
    by reflexivity.
  destruct (moves_keep_origin moves (snd (handleStart d w0)))
    as (Hact & _ & _ & Hn & _).
  rewrite <- Hw in Hact, Hn. simpl in Hact, Hn.
  assert (Hmoved : hasActuallyDragged (state w) = true)
    by (rewrite Hw; apply moves_mark; [reflexivity | exact Hex]).
  subst r.
  destruct (Z.le_gt_cases (Z.abs (screenX u - startX (state w))) DRAG_THRESHOLD)
    as [Hshort | Hlong].
  { rewrite (handleEnd_drag_quiet u now w Hact Hmoved (or_introl Hshort)).
    simpl. repeat split; [left; reflexivity | assumption | left; reflexivity]. }
  destruct (onDrag (handlers w)) as [f |] eqn:Hf.
  - rewrite (handleEnd_drag_fire u now w f Hact Hmoved Hlong Hf).
    destruct (f _); simpl; repeat split;
      try assumption; try (left; reflexivity); try (right; reflexivity);
      right; eexists; reflexivity.
  - rewrite (handleEnd_drag_quiet u now w Hact Hmoved (or_intror Hf)).
    simpl. repeat split; [left; reflexivity | assumption | left; reflexivity].
Qed.

Lemma handleEnd_deactivates (e : Event) (now : Z) (w w1 : World)
      (g : option Gesture) :
  handleEnd e now w = (Normal g, w1) -> isDragging (state w1) = false.
Proof.
  world w. run_method. simpl.
  split_paths; intros H; inversion H; reflexivity.
Qed.

(** X5. When [handleEnd] returns, the recognizer is inactive: until the
    next [handleStart], a further [handleEnd] (a duplicate pointer-up) or
    [handleMove] returns [null] and changes nothing. *)
Theorem X5_end_is_final_until_next_start
        (w : World) (e : Event) (now : Z) (g : option Gesture) (w1 : World) :
  handleEnd e now w = (Normal g, w1) ->
  isDragging (state w1) = false
  /\ (forall e' now', handleEnd e' now' w1 = (Normal None, w1))
  /\ (forall e', handleMove e' w1 = (Normal JNull, w1)).
Proof.
  intros H. pose proof (handleEnd_deactivates e now w w1 g H) as Hoff.
  repeat split.
  - exact Hoff.
  - intros e' now'. apply handleEnd_inactive. exact Hoff.
  - intros e'. apply handleMove_inactive. exact Hoff.
Qed.

Lemma succ_div_mod_20 (k : nat) :
  ((k mod 20 = 19 /\ S k mod 20 = 0 /\ S k / 20 = S (k / 20))
   \/ (k mod 20 < 19 /\ S k mod 20 = S (k mod 20) /\ S k / 20 = k / 20))%nat.
Proof.
  pose proof (Nat.div_mod_eq k 20) as H1.
  pose proof (Nat.mod_upper_bound k 20 ltac:(discriminate)) as H2.
  pose proof (Nat.div_mod_eq (S k) 20) as H3.
  pose proof (Nat.mod_upper_bound (S k) 20 ltac:(discriminate)) as H4.
  lia.
Qed.

(** The world after [k] one-pixel samples along the direction [s] of a
    gesture started at [(x0, y0)]. *)
Lemma unit_steps_state
      (w0 : World) (x0 y0 s : Z) (f : Z -> Completion JsValue) (k : nat) :
  s = 1 \/ s = -1 ->
  onSwipe (handlers w0) = Some f ->
  let w :=
    runOps w0 (OpStart (ev touchstart x0 y0)
               :: map (fun i => OpMove (ev touchmove (x0 + s * Z.of_nat i) y0))
                      (seq 1 k)) in
  isDragging (state w) = true
  /\ startX (state w) = x0
  /\ startY (state w) = y0
  /\ lastX (state w) = x0 + s * Z.of_nat k
  /\ handlers w = handlers w0
  /\ accumulatedDistance (state w) = s * Z.of_nat (k mod 20)
  /\ calls w = calls w0 ++ repeat (CallSwipe (- s)) (k / 20).
Proof.
  intros Hs Hf. induction k as [| k IH].
  - simpl. rewrite app_nil_r. repeat split; lia.
  - cbv zeta in *. rewrite seq_S, map_app.
    rewrite app_comm_cons, runOps_app.
    set (w := runOps w0 (_ :: map _ (seq 1 k))) in *.
    destruct IH as (Hact & Hx & Hy & Hl & Hh & Ha & Hc).
    change (runOps w (map _ [(1 + k)%nat]))
      with (snd (handleMove (ev touchmove (x0 + s * Z.of_nat (1 + k)) y0) w)).
    set (e := ev touchmove (x0 + s * Z.of_nat (1 + k)) y0).
    assert (Hdom : horizontalDominant (startX (state w)) (startY (state w)) e = true).
    { rewrite Hx, Hy. unfold horizontalDominant, e. simpl.
      apply Z.gtb_lt. destruct Hs; subst s; lia. }
    destruct (handleMove_horizontal e w Hact Hdom) as (Hst & Hh' & _ & _ & _ & Hc').
    destruct (markMoved_frame e (state w)) as (Mx & My & _ & _ & Md & _).
    rewrite Hl, Ha, Hh, Hf in *.
    replace (s * Z.of_nat (k mod 20) + (screenX e - (x0 + s * Z.of_nat k)))
      with (s * (Z.of_nat (k mod 20) + 1)) in * by (unfold e; simpl; lia).
    rewrite Hst, Hc', Hh', Hc.
    unfold set_lastX, set_accumulatedDistance.
    cbn [isDragging startX startY lastX accumulatedDistance].
    rewrite Mx, My, Md, Hx, Hy, Hact.
    repeat split; try reflexivity; try (unfold e; simpl; lia).
    + destruct (succ_div_mod_20 k) as [(Hr & Hm & _) | (Hr & Hm & _)];
        destruct (Z.leb_spec SWIPE_THRESHOLD
                    (Z.abs (s * (Z.of_nat (k mod 20) + 1))));
        cbv [SWIPE_THRESHOLD] in *; destruct Hs; subst s; lia.
    + rewrite <- app_assoc. f_equal.
      destruct (succ_div_mod_20 k) as [(Hr & _ & Hd) | (Hr & _ & Hd)];
        rewrite Hd;
        destruct (Z.leb_spec SWIPE_THRESHOLD
                    (Z.abs (s * (Z.of_nat (k mod 20) + 1)))) as [Hge | Hlt];
        cbv [SWIPE_THRESHOLD] in *.
      * assert (Hdir : directionOf (s * (Z.of_nat (k mod 20) + 1)) = - s).
        { unfold directionOf.
          destruct (Z.gtb_spec (s * (Z.of_nat (k mod 20) + 1)) 0);
            destruct Hs; subst s; lia. }
        rewrite Hdir, <- repeat_cons. reflexivity.
      * destruct Hs; subst s; lia.
      * destruct Hs; subst s; lia.
      * rewrite app_nil_r. reflexivity.
Qed.

(** X6. Dragging in one-pixel samples along a horizontal line, [k]
    pixels to the right ([s = 1]) or to the left ([s = -1]), fires
    [onSwipe] exactly [k / 20] times, each time with direction [- s], and
    leaves the remainder [k mod 20] in the accumulator. *)
Theorem X6_unit_steps_swipe_every_20px
        (w0 : World) (x0 y0 s : Z) (f : Z -> Completion JsValue) (k : nat) :
  s = 1 \/ s = -1 ->
  onSwipe (handlers w0) = Some f ->
  let w :=
    runOps w0 (OpStart (ev touchstart x0 y0)
               :: map (fun i => OpMove (ev touchmove (x0 + s * Z.of_nat i) y0))
                      (seq 1 k)) in
  calls w = calls w0 ++ repeat (CallSwipe (- s)) (k / 20)
  /\ accumulatedDistance (state w) = s * Z.of_nat (k mod 20).
Proof.
  intros Hs Hf w.
  destruct (unit_steps_state w0 x0 y0 s f k Hs Hf) as (_ & _ & _ & _ & _ & Ha & Hc).
  split; assumption.
Qed.

Lemma touchend_deactivates (sf : Surface) (e : Event) (now : Z) (w w' : World)
      (b : bool) :
  type e = touchend ->
  ignored sf e = false ->
  listener sf e now w = (Normal b, w') ->
  isDragging (state w') = false.
Proof.
  intros Hty Hig. unfold listener. rewrite Hig, Hty.
  unfold bind, ret, setLastTouchTime.
  destruct (handleEnd e now w) as [[g |] w1] eqn:Hend; intros H; inversion H.
  simpl. exact (handleEnd_deactivates e now w w1 g Hend).
Qed.

(** X7. After a processed touch end at [t0], the whole train of
    synthesized mouse events is swallowed: a mousemove at any time (the
    recognizer is inactive) and a mousedown, mouseup or dblclick less than
    500 ms after [t0] leave the world as it is. *)
Theorem X7_synthetic_mouse_train_swallowed
        (sf : Surface) (w : World) (te : Event) (t0 : Z) (b : bool) (w1 : World)
        (evs : list (Event * Z)) :
  type te = touchend ->
  ignored sf te = false ->
  listener sf te t0 w = (Normal b, w1) ->
  Forall (fun p =>
            type (fst p) = mousemove
            \/ ((type (fst p) = mousedown \/ type (fst p) = mouseup
                 \/ type (fst p) = dblclick)
                /\ snd p - t0 < 500)) evs ->
  deliverAll sf w1 (map (fun p => Dom (fst p) (snd p)) evs) = w1.
Proof.
  intros Hte Hig Hend Hall.
  pose proof (touchend_records sf te t0 w w1 b Hte Hig Hend) as Hlast.
  pose proof (touchend_deactivates sf te t0 w w1 b Hte Hig Hend) as Hoff.
  induction evs as [| [e now] evs IH]; [reflexivity |].
  inversion Hall as [| p l He Hrest]; subst p l. simpl in He.
  change (deliverAll sf w1 (map (fun p => Dom (fst p) (snd p)) ((e, now) :: evs)))
    with (deliverAll sf (snd (listener sf e now w1))
                     (map (fun p => Dom (fst p) (snd p)) evs)).
  assert (Hl : listener sf e now w1 = (Normal false, w1)).
  { unfold listener. destruct (ignored sf e); [reflexivity |].
    destruct He as [-> | [Hty Hnear]].
    - unfold bind, ret. rewrite (handleMove_inactive e w1 Hoff). reflexivity.
    - assert (Hlt : (now - lastTouchTime w1 <? 500) = true)
        by (rewrite Hlast; apply Z.ltb_lt; assumption).
      destruct Hty as [-> | [-> | ->]];
        unfold bind, ret, getLastTouchTime; rewrite Hlt; reflexivity. }
  rewrite Hl. simpl. apply IH. assumption.
Qed.

(** * The navigation callbacks *)

Lemma bookAt_listed (env : Nav.Env) (i : Z) (book : string) :
  Nav.bookAt env i = Some book -> In book (Nav.allBooks env).
Proof.
  unfold Nav.bookAt. destruct (i <? 0); [discriminate |].
  apply nth_error_In.
Qed.

Lemma bookAt_in_bounds (env : Nav.Env) (i : Z) :
  0 <= i < Z.of_nat (List.length (Nav.allBooks env)) ->
  exists book, Nav.bookAt env i = Some book.
Proof.
  intros [Hlo Hhi]. unfold Nav.bookAt.
  destruct (Z.ltb_spec i 0); [lia |].
  destruct (nth_error (Nav.allBooks env) (Z.to_nat i)) as [b |] eqn:Hn.
  - exists b. reflexivity.
  - apply nth_error_None in Hn. lia.
Qed.

Lemma bookAt_bounds (env : Nav.Env) (i : Z) (book : string) :
  Nav.bookAt env i = Some book ->
  0 <= i < Z.of_nat (List.length (Nav.allBooks env)).
Proof.
  unfold Nav.bookAt. destruct (Z.ltb_spec i 0) as [Hneg | Hpos]; [discriminate |].
  intros Hb. assert (Hn : nth_error (Nav.allBooks env) (Z.to_nat i) <> None)
    by congruence.
  apply nth_error_Some in Hn. lia.
Qed.

Ltac nav_unfold :=
  cbv [Nav.onCall Nav.handleSwipe Nav.handleDrag Nav.handleTap
       Nav.handleDoubleTap Nav.enterChapterMode Nav.exitChapterMode
       Nav.enterReadingMode Nav.exitReadingMode Nav.setCurrentBookIndex
       Nav.setCurrentChapter Nav.setBookIndex Nav.setChapter Nav.setMode
       Nav.effect Nav.leChapters Nav.moreThanOne
       Nav.nav Nav.effects Nav.currentMode Nav.currentBookIndex
       Nav.currentChapter].

Ltac nav_simpl :=
  cbn -[Z.mul Z.add Z.sub Z.ltb Z.leb Z.geb Z.gtb Z.eqb Z.of_nat Z.max Z.min].

Lemma onCall_keeps_range (env : Nav.Env) (c : Call) (a : Nav.App) :
  Nav.envOK env ->
  Nav.inRange env a ->
  fst (Nav.onCall env c a) = Normal tt
  /\ Nav.inRange env (snd (Nav.onCall env c a)).
Proof.
  intros Henv (book & n & Hb & Hn & Hn1 & Hch).
  destruct a as [[mode idx ch] effs]. simpl in *.
  assert (Hkeep : forall m' ch' effs',
             (m' <> Nav.BOOKS -> 1 <= ch' <= n) ->
             Nav.inRange env (Nav.mkApp (Nav.mkNav m' idx ch') effs')).
  { intros m' ch' effs' H. exists book, n. simpl. auto. }
  destruct c as [d | d | tapX |]; destruct mode; nav_unfold; nav_simpl;
    rewrite ?Hb, ?Hn; nav_simpl.
  - (* swipe, books *)
    destruct ((idx + d >=? 0) && (idx + d <? Z.of_nat (List.length (Nav.allBooks env))))
      eqn:Hin; nav_simpl.
    + apply andb_true_iff in Hin. destruct Hin as [H1 H2].
      apply Z.geb_le in H1. apply Z.ltb_lt in H2.
      destruct (bookAt_in_bounds env (idx + d) (conj H1 H2)) as [b' Hb'].
      destruct (Henv b' (bookAt_listed env _ _ Hb')) as (n' & Hn' & Hn1').
      split; [reflexivity |].
      destruct (idx =? idx + d); exists b', n'; simpl;
        (split; [assumption | split; [assumption | split; [assumption |]]]);
        intros Hne; contradiction Hne; reflexivity.
    + split; [reflexivity |]. apply Hkeep. intros H; contradiction H; reflexivity.
  - (* swipe, chapters *)
    destruct ((ch + d >=? 1) && (ch + d <=? n)) eqn:Hin; nav_simpl.
    + apply andb_true_iff in Hin. destruct Hin as [H1 H2].
      apply Z.geb_le in H1. apply Z.leb_le in H2.
      split; [reflexivity |].
      destruct (ch =? ch + d); apply Hkeep; intros _; lia.
    + split; [reflexivity |]. apply Hkeep. assumption.
  - (* swipe, reading *)
    split; [reflexivity |]. apply Hkeep. assumption.
  - split; [reflexivity |]. apply Hkeep. intros H; contradiction H; reflexivity.
  - split; [reflexivity |]. apply Hkeep. assumption.
  - (* drag, reading *)
    destruct (n >? 1); nav_simpl; [| split; [reflexivity | apply Hkeep; assumption]].
    destruct ((ch + d >=? 1) && (ch + d <=? n)) eqn:Hin; nav_simpl.
    + apply andb_true_iff in Hin. destruct Hin as [H1 H2].
      apply Z.geb_le in H1. apply Z.leb_le in H2.
      split; [reflexivity |].
      destruct (ch =? ch + d); apply Hkeep; intros _; lia.
    + split; [reflexivity |]. apply Hkeep. assumption.
  - (* tap, books *)
    split; [reflexivity |]. apply Hkeep. intros _. lia.
  - split; [reflexivity |]. apply Hkeep. intros _. apply Hch. discriminate.
  - (* tap, reading *)
    destruct (n >? 1); nav_simpl; [| split; [reflexivity | apply Hkeep; assumption]].
    set (dir := if 2 * tapX <? Nav.innerWidth env then -1 else 1).
    destruct ((ch + dir >=? 1) && (ch + dir <=? n)) eqn:Hin; nav_simpl.
    + apply andb_true_iff in Hin. destruct Hin as [H1 H2].
      apply Z.geb_le in H1. apply Z.leb_le in H2.
      split; [reflexivity |].
      destruct (ch =? ch + dir); apply Hkeep; intros _; lia.
    + split; [reflexivity |]. apply Hkeep. assumption.
  - (* double tap *)
    split; [reflexivity |]. apply Hkeep. intros H; contradiction H; reflexivity.
  - split; [reflexivity |]. apply Hkeep. intros H; contradiction H; reflexivity.
  - split; [reflexivity |]. apply Hkeep. intros _. apply Hch. discriminate.
Qed.

(** X8. With every listed book having a chapter count of at least one,
    and the navigation state pointing at a listed book (and, outside the
    book list, at one of its chapters), no sequence of gesture callbacks
    takes it out of range, and none of them throws. *)
Theorem X8_gestures_keep_navigation_in_range
        (env : Nav.Env) (a : Nav.App) (cs : list Call) :
  Nav.envOK env ->
  Nav.inRange env a ->
  Nav.inRange env (Nav.replay env cs a)
  /\ (forall cs1 c cs2, cs = cs1 ++ c :: cs2 ->
        fst (Nav.onCall env c (Nav.replay env cs1 a)) = Normal tt).
Proof.
  intros Henv Hin.
  assert (Hall : forall l, Nav.inRange env (Nav.replay env l a)).
  { intros l. induction l as [| c l IH] using rev_ind; [exact Hin |].
    unfold Nav.replay. rewrite fold_left_app. simpl.
    apply onCall_keeps_range; assumption. }
  split; [apply Hall |].
  intros cs1 c cs2 _. apply onCall_keeps_range; [assumption | apply Hall].
Qed.

Lemma replay_cons (env : Nav.Env) (c : Call) (cs : list Call) (a : Nav.App) :
  Nav.replay env (c :: cs) a = Nav.replay env cs (snd (Nav.onCall env c a)).
Proof. reflexivity. Qed.

Lemma replay_app (env : Nav.Env) (cs1 cs2 : list Call) (a : Nav.App) :
  Nav.replay env (cs1 ++ cs2) a = Nav.replay env cs2 (Nav.replay env cs1 a).
Proof. apply fold_left_app. Qed.

Lemma swipes_clamp (env : Nav.Env) (d : Z) (n : nat) :
  d = 1 \/ d = -1 ->
  forall a : Nav.App,
    Nav.currentMode (Nav.nav a) = Nav.BOOKS ->
    0 <= Nav.currentBookIndex (Nav.nav a)
      < Z.of_nat (List.length (Nav.allBooks env)) ->
    Nav.nav (Nav.replay env (repeat (CallSwipe d) n) a)
    = Nav.mkNav Nav.BOOKS
        (Z.max 0 (Z.min (Z.of_nat (List.length (Nav.allBooks env)) - 1)
                        (Nav.currentBookIndex (Nav.nav a) + d * Z.of_nat n)))
        (Nav.currentChapter (Nav.nav a)).
Proof.
  intros Hd. induction n as [| n IH]; intros a Hmode Hidx.
  - destruct a as [[mode idx ch] effs]. simpl in *. subst mode.
    f_equal. lia.
  - cbn [repeat]. rewrite replay_cons.
    destruct a as [[mode idx ch] effs]. simpl in Hmode, Hidx. subst mode.
    set (len := Z.of_nat (List.length (Nav.allBooks env))) in *.
    assert (Hstep :
      Nav.nav (snd (Nav.onCall env (CallSwipe d)
                      (Nav.mkApp (Nav.mkNav Nav.BOOKS idx ch) effs)))
      = Nav.mkNav Nav.BOOKS
          (if (idx + d >=? 0) && (idx + d <? len) then idx + d else idx) ch).
    { nav_unfold. nav_simpl. fold len.
      destruct ((idx + d >=? 0) && (idx + d <? len)); nav_simpl;
        [destruct (idx =? idx + d) |]; reflexivity. }
    rewrite IH.
    + rewrite Hstep. nav_simpl. f_equal.
      destruct ((idx + d >=? 0) && (idx + d <? len)) eqn:Hin.
      * apply andb_true_iff in Hin. destruct Hin as [H1 H2].
        apply Z.geb_le in H1. apply Z.ltb_lt in H2. lia.
      * apply andb_false_iff in Hin.
        destruct Hin as [H1 | H1];
          [rewrite Z.geb_leb in H1; apply Z.leb_gt in H1
          | apply Z.ltb_ge in H1];
          destruct Hd; subst d; lia.
    + rewrite Hstep. reflexivity.
    + rewrite Hstep. nav_simpl.
      destruct ((idx + d >=? 0) && (idx + d <? len)) eqn:Hin; [| assumption].
      apply andb_true_iff in Hin. destruct Hin as [H1 H2].
      apply Z.geb_le in H1. apply Z.ltb_lt in H2. lia.
Qed.

(** X9. In the book list, [n] swipe callbacks in one direction move the
    book index by [n] and stop at the first or last book: the mode and
    the chapter are untouched. *)
Theorem X9_swipes_stop_at_the_ends
        (env : Nav.Env) (d : Z) (n : nat) (a : Nav.App) :
  d = 1 \/ d = -1 ->
  Nav.currentMode (Nav.nav a) = Nav.BOOKS ->
  0 <= Nav.currentBookIndex (Nav.nav a)
    < Z.of_nat (List.length (Nav.allBooks env)) ->
  Nav.nav (Nav.replay env (repeat (CallSwipe d) n) a)
  = Nav.mkNav Nav.BOOKS
      (Z.max 0 (Z.min (Z.of_nat (List.length (Nav.allBooks env)) - 1)
                      (Nav.currentBookIndex (Nav.nav a) + d * Z.of_nat n)))
      (Nav.currentChapter (Nav.nav a)).
Proof.
  intros Hd Hmode Hidx. apply swipes_clamp; assumption.
Qed.

(** With no timer scheduled, timer expiries delivered among starts and
    moves do nothing and can be left out. *)
Lemma idle_timers_erased (ops : list Op) :
  forall w : World,
    timers w = [] ->
    Forall (fun o => match o with OpEnd _ _ => False | _ => True end)
           (filter notTimer ops) ->
    runOps w ops = runOps w (filter notTimer ops)
    /\ timers (runOps w ops) = [].
Proof.
  induction ops as [| o ops IH]; intros w Ht Hall; [split; [reflexivity | exact Ht] |].
  destruct o as [e | e | e now | id now]; cbn [filter notTimer] in *.
  - inversion Hall as [| ? ? _ Hrest]; subst.
    rewrite !runOps_cons. apply IH; [exact Ht | exact Hrest].
  - inversion Hall as [| ? ? _ Hrest]; subst.
    rewrite !runOps_cons. apply IH; [| exact Hrest].
    destruct (handleMove_frame e w) as (_ & _ & Hsame & _).
    simpl. rewrite Hsame. exact Ht.
  - inversion Hall as [| ? ? Hend _]; contradiction.
  - rewrite runOps_cons. simpl runOp.
    rewrite (timerFires_idle id now w Ht). simpl. apply IH; assumption.
Qed.

(** X10. Recognizer and application together: in the book list, with no
    tap confirmation pending when the drag starts, a finger dragged [k]
    pixels along a horizontal line in one-pixel samples, to the right
    ([s = 1]) or to the left ([s = -1]), moves the book index by
    [k / 20] books, backwards for a rightward drag, and stops at the ends
    of the list, whatever timer expiries are delivered meanwhile. *)
Theorem X10_dragging_over_the_book_list
        (env : Nav.Env) (a : Nav.App)
        (w0 : World) (x0 y0 s : Z) (f : Z -> Completion JsValue) (k : nat)
        (ops : list Op) :
  s = 1 \/ s = -1 ->
  onSwipe (handlers w0) = Some f ->
  calls w0 = [] ->
  timers w0 = [] ->
  filter notTimer ops
  = OpStart (ev touchstart x0 y0)
    :: map (fun i => OpMove (ev touchmove (x0 + s * Z.of_nat i) y0)) (seq 1 k) ->
  Nav.currentMode (Nav.nav a) = Nav.BOOKS ->
  0 <= Nav.currentBookIndex (Nav.nav a)
    < Z.of_nat (List.length (Nav.allBooks env)) ->
  Nav.nav (Nav.replay env (calls (runOps w0 ops)) a)
  = Nav.mkNav Nav.BOOKS
      (Z.max 0 (Z.min (Z.of_nat (List.length (Nav.allBooks env)) - 1)
                      (Nav.currentBookIndex (Nav.nav a)
                       - s * Z.of_nat (k / 20))))
      (Nav.currentChapter (Nav.nav a)).
Proof.
  intros Hs Hf Hc0 Ht0 Hops Hmode Hidx.
  destruct (idle_timers_erased ops w0 Ht0) as [Herase _].
  { rewrite Hops. constructor; [exact I |].
    apply Forall_forall. intros o Ho. apply in_map_iff in Ho.
    destruct Ho as (i & <- & _). exact I. }
  rewrite Herase, Hops.
  destruct (unit_steps_state w0 x0 y0 s f k Hs Hf) as (_ & _ & _ & _ & _ & _ & Hc).
  cbv zeta in Hc. rewrite Hc, Hc0. cbn [app].
  rewrite (swipes_clamp env (- s) (k / 20)); try assumption.
  - f_equal. lia.
  - destruct Hs; subst s; [right | left]; reflexivity.
Qed.

(** X11. A tap descends one level and a double-tap undoes it: from the
    chapter list, tap then double-tap restores the navigation state
    exactly; from the book list it returns to the same book, the chapter
    having been set to 1 on the way. *)
Theorem X11_double_tap_undoes_tap
        (env : Nav.Env) (tapX : Z) (a : Nav.App) (book : string) :
  Nav.bookAt env (Nav.currentBookIndex (Nav.nav a)) = Some book ->
  let a1 := snd (Nav.handleTap env tapX a) in
  let a2 := snd (Nav.handleDoubleTap a1) in
  match Nav.currentMode (Nav.nav a) with
  | Nav.BOOKS =>
      Nav.nav a1 = Nav.mkNav Nav.CHAPTERS (Nav.currentBookIndex (Nav.nav a)) 1
      /\ Nav.nav a2 = Nav.mkNav Nav.BOOKS (Nav.currentBookIndex (Nav.nav a)) 1
  | Nav.CHAPTERS =>
      Nav.currentMode (Nav.nav a1) = Nav.READING /\ Nav.nav a2 = Nav.nav a
  | Nav.READING =>
      Nav.currentMode (Nav.nav a1) = Nav.READING
      /\ Nav.nav a2
         = Nav.mkNav Nav.CHAPTERS (Nav.currentBookIndex (Nav.nav a))
                     (Nav.currentChapter (Nav.nav a1))
  end.
Proof.
  intros Hb. destruct a as [[mode idx ch] effs]. simpl in Hb.
  destruct mode; nav_unfold; nav_simpl; rewrite ?Hb; nav_simpl.
  - split; reflexivity.
  - split; reflexivity.
  - destruct (match Nav.chapterCounts env book with
              | Some c => c >? 1 | None => false end); nav_simpl;
      [| split; reflexivity].
    destruct (_ && _); nav_simpl; [destruct (ch =? _) |]; split; reflexivity.
Qed.

(** X12. In reading mode a tap on the left half of the window goes to
    the previous chapter and a tap elsewhere to the next one, stopping at
    chapter 1 and at the book's last chapter; the mode and the book are
    untouched. *)
Theorem X12_reading_tap_left_right
        (env : Nav.Env) (tapX : Z) (a : Nav.App) (book : string) (n : Z) :
  Nav.currentMode (Nav.nav a) = Nav.READING ->
  Nav.bookAt env (Nav.currentBookIndex (Nav.nav a)) = Some book ->
  Nav.chapterCounts env book = Some n ->
  1 <= Nav.currentChapter (Nav.nav a) <= n ->
  let r := Nav.handleTap env tapX a in
  fst r = Normal tt
  /\ Nav.nav (snd r)
     = Nav.mkNav Nav.READING (Nav.currentBookIndex (Nav.nav a))
         (if 2 * tapX <? Nav.innerWidth env
          then Z.max 1 (Nav.currentChapter (Nav.nav a) - 1)
          else Z.min n (Nav.currentChapter (Nav.nav a) + 1)).
Proof.
  intros Hmode Hb Hn Hch r. subst r.
  destruct a as [[mode idx ch] effs]. simpl in Hmode, Hb, Hch. subst mode.
  nav_unfold. nav_simpl. rewrite Hb. nav_simpl. rewrite Hn. nav_simpl.
  destruct (Z.gtb_spec n 1) as [Hmany | Hone]; nav_simpl.
  - destruct (2 * tapX <? Nav.innerWidth env).
    + destruct (Z.geb_spec (ch + -1) 1); nav_simpl.
      * destruct (Z.leb_spec (ch + -1) n); [| lia]. nav_simpl.
        destruct (Z.eqb_spec ch (ch + -1)); [lia |].
        split; [reflexivity | f_equal; lia].
      * split; [reflexivity | f_equal; lia].
    + destruct (Z.geb_spec (ch + 1) 1); [| lia]. nav_simpl.
      destruct (Z.leb_spec (ch + 1) n); nav_simpl.
      * destruct (Z.eqb_spec ch (ch + 1)); [lia |].
        split; [reflexivity | f_equal; lia].
      * split; [reflexivity | f_equal; lia].
  - split; [reflexivity |]. f_equal.
    destruct (2 * tapX <? Nav.innerWidth env); lia.
Qed.

Lemma reading_swipes_ignored (env : Nav.Env) (ds : list Z) (a : Nav.App) :
  Nav.currentMode (Nav.nav a) = Nav.READING ->
  Nav.replay env (map CallSwipe ds) a = a.
Proof.
  intros Hmode. induction ds as [| d ds IH]; [reflexivity |].
  cbn [map]. rewrite replay_cons.
  assert (Hstep : snd (Nav.onCall env (CallSwipe d) a) = a).
  { unfold Nav.onCall, Nav.handleSwipe. rewrite Hmode. reflexivity. }
  rewrite Hstep. exact IH.
Qed.

Lemma swipes_keep_mode (env : Nav.Env) (ds : list Z) :
  forall a : Nav.App,
    Nav.currentMode (Nav.nav (Nav.replay env (map CallSwipe ds) a))
    = Nav.currentMode (Nav.nav a).
Proof.
  induction ds as [| d ds IH]; intros a; [reflexivity |].
  cbn [map]. rewrite replay_cons, IH.
  destruct a as [[mode idx ch] effs].
  destruct mode; nav_unfold; nav_simpl; try reflexivity.
  - destruct (_ && _); nav_simpl; [destruct (idx =? _) |]; reflexivity.
  - destruct (Nav.bookAt env idx); nav_simpl; [| reflexivity].
    destruct (_ && _); nav_simpl; [destruct (ch =? _) |]; reflexivity.
Qed.

Lemma swipes_then_drag
      (env : Nav.Env) (ds : list Z) (d : Z) (a : Nav.App) :
  Nav.replay env (map CallSwipe ds ++ [CallDrag d]) a
  = match Nav.currentMode (Nav.nav a) with
    | Nav.READING => Nav.replay env [CallDrag d] a
    | _ => Nav.replay env (map CallSwipe ds) a
    end.
Proof.
  rewrite replay_app.
  destruct (Nav.currentMode (Nav.nav a)) eqn:Hmode.
  - cbn [Nav.replay fold_left]. unfold Nav.onCall, Nav.handleDrag.
    rewrite swipes_keep_mode, Hmode. reflexivity.
  - cbn [Nav.replay fold_left]. unfold Nav.onCall, Nav.handleDrag.
    rewrite swipes_keep_mode, Hmode. reflexivity.
  - rewrite (reading_swipes_ignored env ds a Hmode). reflexivity.
Qed.

Lemma handleMove_calls (e : Event) (w : World) :
  exists ds, calls (snd (handleMove e w)) = calls w ++ map CallSwipe ds.
Proof.
  world w. run_method. simpl.
  split_paths;
    first [ exists []; simpl; rewrite app_nil_r; reflexivity
          | eexists [_]; reflexivity ].
Qed.

(** The moves of a gesture, with timer expiries among them while no
    timer is scheduled, invoke nothing but [onSwipe]. *)
Lemma gesture_body_calls (body : list Op) :
  forall w : World,
    timers w = [] ->
    Forall (fun o => match o with
                     | OpMove _ | OpTimer _ _ => True
                     | _ => False
                     end) body ->
    exists ds,
      calls (runOps w body) = calls w ++ map CallSwipe ds
      /\ isDragging (state (runOps w body)) = isDragging (state w).
Proof.
  induction body as [| o body IH]; intros w Ht Hall.
  - exists []. simpl. rewrite app_nil_r. split; reflexivity.
  - inversion Hall as [| ? ? Ho Hrest]; subst. rewrite runOps_cons.
    destruct o as [e | e | e now | id now]; try contradiction.
    + change (runOp w (OpMove e)) with (snd (handleMove e w)).
      destruct (handleMove_calls e w) as [ds1 Hc1].
      destruct (handleMove_frame e w) as (_ & _ & Hsame & _).
      destruct (handleMove_keeps_origin e w) as (Hact & _).
      destruct (IH (snd (handleMove e w))) as (ds2 & Hc2 & Hact2);
        [rewrite Hsame; exact Ht | exact Hrest |].
      exists (ds1 ++ ds2). rewrite Hc2, Hc1, map_app, <- app_assoc.
      split; [reflexivity | congruence].
    + simpl runOp. rewrite (timerFires_idle id now w Ht). simpl.
      apply IH; assumption.
Qed.

(** X13. With no tap confirmation pending when it starts, a gesture that
    moved invokes nothing but [onSwipe] while it moves and at most one
    [onDrag] when it ends, and the application never acts on both: in
    reading mode the swipes change nothing, so that only the drag counts;
    in the book and chapter lists the drag changes nothing. *)
Theorem X13_swipe_and_drag_never_both_act
        (env : Nav.Env) (a : Nav.App)
        (w0 : World) (d : Event) (body : list Op) (u : Event) (now : Z) :
  timers w0 = [] ->
  Forall (fun o => match o with
                   | OpMove _ | OpTimer _ _ => True
                   | _ => False
                   end) body ->
  let w := runOps w0 (OpStart d :: body) in
  hasActuallyDragged (state w) = true ->
  exists ds tail,
    calls (snd (handleEnd u now w)) = calls w0 ++ map CallSwipe ds ++ tail
    /\ (tail = [] \/ exists dir, tail = [CallDrag dir])
    /\ Nav.replay env (map CallSwipe ds ++ tail) a
       = match Nav.currentMode (Nav.nav a) with
         | Nav.READING => Nav.replay env tail a
         | _ => Nav.replay env (map CallSwipe ds) a
         end.
Proof.
  intros Ht0 Hbody w Hmoved.
  assert (Hw : w = runOps (snd (handleStart d w0)) body) by reflexivity.
  destruct (gesture_body_calls body (snd (handleStart d w0)) Ht0 Hbody)
    as (ds & Hc & Hact).
  rewrite <- Hw in Hc, Hact. simpl in Hc, Hact.
  rewrite handleEnd_calls, Hc.
  assert (Htail : endCalls u now w = []
                  \/ exists dir, endCalls u now w = [CallDrag dir]).
  { unfold endCalls. rewrite Hact, Hmoved. simpl.
    destruct (_ >? _); [| left; reflexivity].
    destruct (onDrag (handlers w)); [right; eexists | left]; reflexivity. }
  exists ds, (endCalls u now w).
  split; [rewrite <- app_assoc; reflexivity |]. split; [exact Htail |].
  destruct Htail as [-> | [dir ->]].
  - rewrite app_nil_r.
    destruct (Nav.currentMode (Nav.nav a)) eqn:Hmode; try reflexivity.
    apply reading_swipes_ignored. exact Hmode.
  - apply swipes_then_drag.
Qed.

(** * The event bus *)

Lemma callback_eqb_eq (c1 c2 : Bus.Callback) :
  Bus.callback_eqb c1 c2 = true <-> c1 = c2.
Proof.
  destruct c1 as [f1 | s1 n1 f1], c2 as [f2 | s2 n2 f2]; simpl.
  - rewrite Nat.eqb_eq. split; [intros -> | intros H; inversion H]; reflexivity.
  - split; [discriminate | intros H; inversion H].
  - split; [discriminate | intros H; inversion H].
  - rewrite !andb_true_iff, !Nat.eqb_eq, String.eqb_eq.
    split; [intros [[-> ->] ->] | intros H; inversion H]; auto.
Qed.

Lemma callback_eqb_refl (c : Bus.Callback) : Bus.callback_eqb c c = true.
Proof. apply callback_eqb_eq. reflexivity. Qed.

Lemma nth_error_skipn_cons {A} (l : list A) :
  forall k x, nth_error l k = Some x -> skipn k l = x :: skipn (S k) l.
Proof.
  induction l as [| a l IH]; intros [| k] x H; simpl in *; try discriminate.
  - inversion H. reflexivity.
  - apply IH. assumption.
Qed.

Lemma nth_error_skipn_nil {A} (l : list A) :
  forall k, nth_error l k = None -> skipn k l = [].
Proof.
  induction l as [| a l IH]; intros [| k] H; simpl in *;
    try reflexivity; try discriminate.
  apply IH. assumption.
Qed.

(** [forEach] over an array of subscriber functions only: each index in
    turn, the array untouched. *)
Lemma forEach_plain (throws : nat -> Bus.Data -> bool) (name : string)
      (data : Bus.Data) (l : list nat) (remaining : nat) :
  forall (k : nat) (b : Bus.Bus),
    Bus.events b name = Some (map Bus.Plain l) ->
    let b' := Bus.forEachFrom throws name data remaining k b in
    let called := firstn remaining (skipn k l) in
    Bus.invoked b' = Bus.invoked b ++ map (fun f => (f, data)) called
    /\ Bus.reported b'
       = Bus.reported b
         ++ map (fun _ => name) (filter (fun f => throws f data) called)
    /\ Bus.events b' = Bus.events b
    /\ Bus.nextSerial b' = Bus.nextSerial b.
Proof.
  induction remaining as [| r IH]; intros k b Hev; simpl.
  - rewrite !app_nil_r. repeat split.
  - rewrite Hev. rewrite nth_error_map.
    destruct (nth_error l k) as [f |] eqn:Hk; simpl.
    + rewrite (nth_error_skipn_cons l k f Hk). simpl.
      set (b1 := Bus.callCaught throws name (Bus.Plain f) data b).
      assert (H1 : Bus.events b1 = Bus.events b
                   /\ Bus.nextSerial b1 = Bus.nextSerial b
                   /\ Bus.invoked b1 = Bus.invoked b ++ [(f, data)]
                   /\ Bus.reported b1
                      = Bus.reported b ++ (if throws f data then [name] else [])).
      { unfold b1, Bus.callCaught, Bus.call, Bus.callPlain.
        destruct (throws f data); simpl; rewrite ?app_nil_r; repeat split. }
      destruct H1 as (He & Hs & Hi & Hr).
      destruct (IH (S k) b1) as (I1 & I2 & I3 & I4); [rewrite He; exact Hev |].
      rewrite I1, I2, I3, I4, He, Hs, Hi, Hr, <- !app_assoc.
      destruct (throws f data); repeat split.
    + rewrite (nth_error_skipn_nil l k Hk).
      assert (Hnil : skipn (S k) l = []).
      { apply nth_error_skipn_nil. apply nth_error_None.
        apply nth_error_None in Hk. lia. }
      destruct (IH (S k) b Hev) as (I1 & I2 & I3 & I4).
      rewrite Hnil in I1, I2. rewrite firstn_nil in *.
      repeat split; assumption.
Qed.

Lemma emit_plain
      (throws : nat -> Bus.Data -> bool) (name : string) (data : Bus.Data)
      (b : Bus.Bus) (fs : list nat) :
  Bus.events b name = Some (map Bus.Plain fs) ->
  let b' := Bus.emit throws name data b in
  Bus.invoked b' = Bus.invoked b ++ map (fun f => (f, data)) fs
  /\ Bus.reported b'
     = Bus.reported b ++ map (fun _ => name) (filter (fun f => throws f data) fs)
  /\ Bus.events b' = Bus.events b.
Proof.
  intros Hev b'. subst b'. unfold Bus.emit. rewrite Hev.
  destruct (forEach_plain throws name data fs (List.length (map Bus.Plain fs)) 0 b Hev)
    as (H1 & H2 & H3 & _).
  rewrite length_map in *. simpl skipn in *. rewrite firstn_all in *.
  repeat split; assumption.
Qed.

(** X14. [emit] calls every subscribed function once, in subscription
    order, with the payload, whether or not earlier ones throw; each
    exception is reported and goes no further, and the subscriptions are
    left as they were. *)
Theorem X14_emit_isolates_exceptions
        (throws : nat -> Bus.Data -> bool) (name : string) (data : Bus.Data)
        (b : Bus.Bus) (fs : list nat) :
  Bus.events b name = Some (map Bus.Plain fs) ->
  let b' := Bus.emit throws name data b in
  Bus.invoked b' = Bus.invoked b ++ map (fun f => (f, data)) fs
  /\ Bus.reported b'
     = Bus.reported b ++ map (fun _ => name) (filter (fun f => throws f data) fs)
  /\ Bus.events b' = Bus.events b.
Proof.
  intros Hev. exact (emit_plain throws name data b fs Hev).
Qed.

Lemma subscribe_events (name : string) (c : Bus.Callback) (b : Bus.Bus) :
  Bus.events (Bus.subscribe name c b) name
  = Some (match Bus.events b name with
          | Some l => l
          | None => []
          end ++ [c])
  /\ (forall n, n <> name ->
        Bus.events (Bus.subscribe name c b) n = Bus.events b n)
  /\ Bus.invoked (Bus.subscribe name c b) = Bus.invoked b
  /\ Bus.reported (Bus.subscribe name c b) = Bus.reported b.
Proof.
  unfold Bus.subscribe.
  destruct (Bus.events b name) as [l |] eqn:Hev.
  - rewrite Hev. simpl. unfold Bus.mapSet. rewrite String.eqb_refl.
    repeat split. intros n Hn.
    destruct (String.eqb_spec n name); [contradiction | reflexivity].
  - unfold Bus.mapSet at 1. rewrite String.eqb_refl. simpl.
    unfold Bus.mapSet. rewrite String.eqb_refl.
    repeat split. intros n Hn. simpl.
    destruct (String.eqb_spec n name); [contradiction | reflexivity].
Qed.

Lemma indexOf_fresh_last (c : Bus.Callback) (l : list Bus.Callback) :
  ~ In c l -> Bus.indexOf c (l ++ [c]) = Some (List.length l).
Proof.
  induction l as [| a l IH]; intros Hnot; simpl.
  - rewrite callback_eqb_refl. reflexivity.
  - destruct (Bus.callback_eqb a c) eqn:Heq.
    + apply callback_eqb_eq in Heq. subst a. contradiction Hnot. left. reflexivity.
    + rewrite IH; [reflexivity |]. intros Hin. apply Hnot. right. assumption.
Qed.

Lemma indexOf_absent (c : Bus.Callback) (l : list Bus.Callback) :
  ~ In c l -> Bus.indexOf c l = None.
Proof.
  induction l as [| a l IH]; intros Hnot; simpl; [reflexivity |].
  destruct (Bus.callback_eqb a c) eqn:Heq.
  - apply callback_eqb_eq in Heq. subst a. contradiction Hnot. left. reflexivity.
  - rewrite IH; [reflexivity |]. intros Hin. apply Hnot. right. assumption.
Qed.

Lemma indexOf_present (c : Bus.Callback) (l : list Bus.Callback) :
  In c l -> exists i, Bus.indexOf c l = Some i
                      /\ S (List.length (Bus.spliceOne i l)) = List.length l.
Proof.
  induction l as [| a l IH]; intros Hin; [contradiction |]. simpl.
  destruct (Bus.callback_eqb a c) eqn:Heq.
  - exists O. split; reflexivity.
  - destruct Hin as [-> | Hin]; [rewrite callback_eqb_refl in Heq; discriminate |].
    destruct (IH Hin) as (i & Hi & Hlen). rewrite Hi.
    exists (S i). split; [reflexivity |]. simpl. rewrite Hlen. reflexivity.
Qed.

Lemma spliceOne_last (l : list Bus.Callback) (c : Bus.Callback) :
  Bus.spliceOne (List.length l) (l ++ [c]) = l.
Proof.
  induction l as [| a l IH]; simpl; [reflexivity |]. rewrite IH. reflexivity.
Qed.

(** X15. [on] appends one listener for its event and touches no other
    event.  The closure it returns removes one listener again, so the
    count is back to what it was; if the function was not subscribed
    before, the listener array is exactly as before and calling the
    closure a second time changes nothing. *)
Theorem X15_on_and_unsubscribe
        (name : string) (f : nat) (b : Bus.Bus) :
  let old := match Bus.events b name with
             | Some l => l
             | None => []
             end in
  let b1 := Bus.on name f b in
  let b2 := Bus.unsubscribe name (Bus.Plain f) b1 in
  Bus.events b1 name = Some (old ++ [Bus.Plain f])
  /\ Bus.listenerCount name b1 = S (Bus.listenerCount name b)
  /\ (forall n, n <> name -> Bus.events b1 n = Bus.events b n)
  /\ Bus.listenerCount name b2 = Bus.listenerCount name b
  /\ (~ In (Bus.Plain f) old ->
      Bus.events b2 name = Some old
      /\ Bus.unsubscribe name (Bus.Plain f) b2 = b2).
Proof.
  intros old b1 b2.
  destruct (subscribe_events name (Bus.Plain f) b) as (Hev & Hother & _).
  fold old in Hev. change (Bus.subscribe name (Bus.Plain f) b) with b1 in Hev, Hother.
  assert (Hcount : Bus.listenerCount name b = List.length old).
  { unfold Bus.listenerCount, old. destruct (Bus.events b name); reflexivity. }
  split; [exact Hev |]. split.
  { unfold Bus.listenerCount at 1. rewrite Hev, Hcount, length_app. simpl. lia. }
  split; [exact Hother |]. split.
  - destruct (indexOf_present (Bus.Plain f) (old ++ [Bus.Plain f]))
      as (i & Hi & Hlen); [apply in_or_app; right; left; reflexivity |].
    unfold b2, Bus.unsubscribe. rewrite Hev, Hi.
    unfold Bus.listenerCount at 1. simpl. unfold Bus.mapSet.
    rewrite String.eqb_refl, Hcount. rewrite length_app in Hlen. simpl in Hlen. lia.
  - intros Hnot.
    assert (Hb2 : Bus.events b2 name = Some old).
    { unfold b2, Bus.unsubscribe.
      rewrite Hev, (indexOf_fresh_last _ _ Hnot), spliceOne_last.
      simpl. unfold Bus.mapSet. rewrite String.eqb_refl. reflexivity. }
    split; [exact Hb2 |].
    unfold Bus.unsubscribe at 1. rewrite Hb2, (indexOf_absent _ _ Hnot).
    reflexivity.
Qed.

Lemma forEachFrom_add (throws : nat -> Bus.Data -> bool) (name : string)
      (data : Bus.Data) (r1 r2 : nat) :
  forall (k : nat) (b : Bus.Bus),
    Bus.forEachFrom throws name data (r1 + r2) k b
    = Bus.forEachFrom throws name data r2 (k + r1)
        (Bus.forEachFrom throws name data r1 k b).
Proof.
  induction r1 as [| r1 IH]; intros k b; simpl.
  - rewrite Nat.add_0_r. reflexivity.
  - destruct (Bus.events b name) as [l |] eqn:Hev.
    + replace (k + S r1)%nat with (S k + r1)%nat by lia.
      destruct (nth_error l k); apply IH.
    + destruct r2; simpl; [reflexivity | rewrite Hev; reflexivity].
Qed.

Lemma indexOf_after_plain (pre : list nat) (c : Bus.Callback)
      (rest : list Bus.Callback) :
  (forall f, c <> Bus.Plain f) ->
  Bus.indexOf c (map Bus.Plain pre ++ c :: rest) = Some (List.length pre)
  /\ Bus.spliceOne (List.length pre) (map Bus.Plain pre ++ c :: rest)
     = map Bus.Plain pre ++ rest.
Proof.
  intros Hc. destruct c as [g | s n g]; [contradiction (Hc g eq_refl) |].
  induction pre as [| p pre [IH1 IH2]].
  - cbn [map app List.length Bus.indexOf Bus.spliceOne].
    rewrite callback_eqb_refl. split; reflexivity.
  - simpl. simpl in IH1, IH2. rewrite IH1, IH2. split; reflexivity.
Qed.

(** X16. A [once] listener is called at the first [emit] and is gone
    afterwards.  Because it removes itself from the array that [forEach]
    is walking, the listener subscribed right after it is skipped by that
    first [emit]: it is called from the second [emit] on. *)
Theorem X16_once_fires_once_and_skips_its_successor
        (throws : nat -> Bus.Data -> bool) (name : string) (data : Bus.Data)
        (b : Bus.Bus) (pre post : list nat) (serial f : nat) :
  Bus.events b name
  = Some (map Bus.Plain pre ++ Bus.OnceWrapper serial name f :: map Bus.Plain post) ->
  let b1 := Bus.emit throws name data b in
  let b2 := Bus.emit throws name data b1 in
  Bus.invoked b1
  = Bus.invoked b ++ map (fun g => (g, data)) (pre ++ f :: tl post)
  /\ Bus.events b1 name = Some (map Bus.Plain (pre ++ post))
  /\ Bus.invoked b2
     = Bus.invoked b1 ++ map (fun g => (g, data)) (pre ++ post).
Proof.
  intros Hev b1 b2.
  set (W := Bus.OnceWrapper serial name f) in *.
  assert (Hlen : List.length (map Bus.Plain pre ++ W :: map Bus.Plain post)
                 = (List.length pre + (1 + List.length post))%nat)
    by (rewrite length_app; simpl; rewrite !length_map; reflexivity).
  (* the listeners before the wrapper *)
  assert (Hpre : forall (l : list nat) (done : list nat) (b0 : Bus.Bus),
             Bus.events b0 name = Bus.events b name ->
             pre = done ++ l ->
             let b' := Bus.forEachFrom throws name data (List.length l)
                                       (List.length done) b0 in
             Bus.invoked b' = Bus.invoked b0 ++ map (fun g => (g, data)) l
             /\ Bus.events b' = Bus.events b0).
  { induction l as [| g l IH]; intros done b0 He Hsplit; simpl.
    - rewrite app_nil_r. split; reflexivity.
    - rewrite He, Hev, Hsplit. rewrite map_app, <- app_assoc. simpl.
      rewrite nth_error_app2 by (rewrite length_map; lia).
      rewrite length_map, Nat.sub_diag. simpl.
      set (b0' := Bus.callCaught throws name (Bus.Plain g) data b0).
      assert (H0 : Bus.events b0' = Bus.events b0
                   /\ Bus.invoked b0' = Bus.invoked b0 ++ [(g, data)]).
      { unfold b0', Bus.callCaught, Bus.call, Bus.callPlain.
        destruct (throws g data); split; reflexivity. }
      destruct H0 as [He0 Hi0].
      destruct (IH (done ++ [g]) b0') as [I1 I2].
      + rewrite He0. exact He.
      + rewrite <- app_assoc. exact Hsplit.
      + rewrite length_app in I1, I2. simpl in I1, I2.
        replace (List.length done + 1)%nat with (S (List.length done)) in I1, I2 by lia.
        rewrite I1, I2, He0, Hi0, <- app_assoc. split; reflexivity. }
  destruct (Hpre pre [] b eq_refl eq_refl) as [Hi1 He1]. simpl in Hi1, He1.
  set (bp := Bus.forEachFrom throws name data (List.length pre) 0 b) in *.
  (* the wrapper itself *)
  destruct (indexOf_after_plain pre W (map Bus.Plain post)) as [Hidx Hsplice];
    [intros g; discriminate |].
  set (bw := Bus.callCaught throws name W data bp).
  assert (Hw : Bus.events bw name = Some (map Bus.Plain (pre ++ post))
               /\ Bus.invoked bw = Bus.invoked bp ++ [(f, data)]).
  { unfold bw, Bus.callCaught, Bus.call, W, Bus.unsubscribe, Bus.callPlain.
    fold W. rewrite He1, Hev, Hidx, Hsplice. simpl.
    destruct (throws f data); simpl; unfold Bus.mapSet;
      rewrite String.eqb_refl, map_app; split; reflexivity. }
  destruct Hw as [Hew Hiw].
  (* what is left of the walk *)
  destruct (forEach_plain throws name data (pre ++ post) (List.length post)
              (S (List.length pre)) bw Hew) as (Hi3 & _ & He3 & _).
  assert (Hrest : firstn (List.length post) (skipn (S (List.length pre)) (pre ++ post))
                  = tl post).
  { rewrite skipn_app.
    rewrite (skipn_all2 pre) by lia.
    replace (S (List.length pre) - List.length pre)%nat with 1%nat by lia.
    destruct post as [| q post]; [reflexivity |].
    change (firstn (List.length (q :: post)) post = post).
    apply firstn_all2. simpl. lia. }
  rewrite Hrest in Hi3.
  assert (Hb1 : b1 = Bus.forEachFrom throws name data (List.length post)
                       (S (List.length pre)) bw).
  { unfold b1, Bus.emit. rewrite Hev, Hlen.
    rewrite forEachFrom_add. fold bp. simpl Nat.add.
    rewrite (forEachFrom_add throws name data 1 (List.length post)).
    replace (List.length pre + 1)%nat with (S (List.length pre)) by lia.
    f_equal. simpl. rewrite He1, Hev.
    rewrite nth_error_app2 by (rewrite length_map; lia).
    rewrite length_map, Nat.sub_diag. reflexivity. }
  assert (G1 : Bus.invoked b1
               = Bus.invoked b ++ map (fun g => (g, data)) (pre ++ f :: tl post)).
  { rewrite Hb1, Hi3, Hiw, Hi1, map_app, <- !app_assoc. reflexivity. }
  assert (G2 : Bus.events b1 name = Some (map Bus.Plain (pre ++ post))).
  { rewrite Hb1, He3. exact Hew. }
  repeat split; try assumption.
  destruct (emit_plain throws name data b1 (pre ++ post) G2) as (H & _).
  exact H.
Qed.

(** X17. [off] with a non-empty event name removes that event's
    listeners and no others, after which emitting it does nothing.
    Called with no argument, or with the empty string (which is falsy),
    it removes the listeners of every event. *)
Theorem X17_off_removes_listeners (b : Bus.Bus) (name : string) :
  name <> EmptyString ->
  let b1 := Bus.off (Some name) b in
  Bus.listenerCount name b1 = O
  /\ (forall n, n <> name -> Bus.events b1 n = Bus.events b n)
  /\ (forall throws data, Bus.emit throws name data b1 = b1)
  /\ (forall n, Bus.listenerCount n (Bus.off None b) = O)
  /\ (forall n, Bus.listenerCount n (Bus.off (Some EmptyString) b) = O).
Proof.
  intros Hname b1.
  assert (Hoff : b1 = Bus.setEvents (Bus.mapDelete name (Bus.events b)) b).
  { unfold b1, Bus.off. destruct (String.eqb_spec name EmptyString);
      [contradiction | reflexivity]. }
  assert (Hgone : Bus.events b1 name = None).
  { rewrite Hoff. simpl. unfold Bus.mapDelete. rewrite String.eqb_refl. reflexivity. }
  repeat split.
  - unfold Bus.listenerCount. rewrite Hgone. reflexivity.
  - intros n Hn. rewrite Hoff. simpl. unfold Bus.mapDelete.
    destruct (String.eqb_spec n name); [contradiction | reflexivity].
  - intros throws data. unfold Bus.emit. rewrite Hgone. reflexivity.
Qed.

(** * Book data utilities *)

(** X18. [getFirstAlphabeticChar] returns the first capital ASCII letter
    of the name: what precedes it has no capital, and the result is
    [undefined] exactly when the name has no capital letter at all (a
    name in lower case has no first letter in this sense). *)
Theorem X18_first_capital_letter (bookName : string) :
  match Books.getFirstAlphabeticChar bookName with
  | Some c =>
      Books.isUpper c = true
      /\ exists before after,
           bookName = (before ++ String c after)%string
           /\ forallb (fun k => negb (Books.isUpper k))
                      (list_ascii_of_string before) = true
  | None =>
      forallb (fun k => negb (Books.isUpper k))
              (list_ascii_of_string bookName) = true
  end.
Proof.
  induction bookName as [| c rest IH]; simpl; [reflexivity |].
  destruct (Books.isUpper c) eqn:Hc.
  - split; [exact Hc |]. exists EmptyString, rest. split; reflexivity.
  - destruct (Books.getFirstAlphabeticChar rest) as [c' |].
    + destruct IH as (Hup & before & after & Heq & Hbefore).
      split; [exact Hup |].
      exists (String c before), after. split.
      * simpl. rewrite Heq. reflexivity.
      * simpl. rewrite Hc, Hbefore. reflexivity.
    + simpl. rewrite IH. reflexivity.
Qed.

Lemma occurrences_lower_bound (books : list string) (c : ascii) :
  forall index i, In i (Books.occurrencesFrom index books c) -> (index <= i)%nat.
Proof.
  induction books as [| book rest IH]; intros index i Hin; simpl in Hin;
    [contradiction |].
  destruct (Books.getFirstAlphabeticChar book) as [c' |].
  - destruct (Ascii.eqb c' c).
    + destruct Hin as [<- | Hin]; [lia |]. apply IH in Hin. lia.
    + apply IH in Hin. lia.
  - apply IH in Hin. lia.
Qed.

(** From a positive index on, a letter that already has a positive index
    keeps it, and any other letter gets the index of its next book. *)
Lemma buildFrom_positive (books : list string) (c : ascii) :
  forall (index : nat) (m : Books.LetterMap),
    (1 <= index)%nat ->
    Books.buildFrom index books m c
    = if Books.unset (m c)
      then match Books.occurrencesFrom index books c with
           | [] => m c
           | j :: _ => Some j
           end
      else m c.
Proof.
  induction books as [| book rest IH]; intros index m Hpos; simpl.
  - destruct (Books.unset (m c)); reflexivity.
  - rewrite IH by lia.
    destruct (Books.getFirstAlphabeticChar book) as [c' |]; [| reflexivity].
    destruct (Ascii.eqb_spec c' c) as [-> | Hne].
    + destruct (Books.unset (m c)) eqn:Hun.
      * unfold Books.letterSet. rewrite Ascii.eqb_refl.
        destruct index; [lia | reflexivity].
      * rewrite Hun. reflexivity.
    + assert (Hsame : (if Books.unset (m c')
                       then Books.letterSet c' index m else m) c = m c).
      { destruct (Books.unset (m c')); [| reflexivity].
        unfold Books.letterSet.
        destruct (Ascii.eqb_spec c c'); [congruence | reflexivity]. }
      rewrite Hsame. reflexivity.
Qed.

(** X19. [buildLetterToBookIndex] maps a letter to the index of the first
    book whose first capital it is, with one exception: index 0 reads as
    "not set yet", so the letter of the very first book is mapped to the
    second book with that letter when there is one. *)
Theorem X19_letter_index_of_first_book_except_index_0
        (books : list string) (c : ascii) :
  Books.buildLetterToBookIndex books c
  = match Books.occurrencesFrom 0 books c with
    | [] => None
    | O :: j :: _ => Some j
    | i :: _ => Some i
    end.
Proof.
  unfold Books.buildLetterToBookIndex.
  destruct books as [| book rest]; [reflexivity |]. simpl.
  rewrite buildFrom_positive by lia.
  assert (Hpos : match Books.occurrencesFrom 1 rest c with
                 | [] => True
                 | j :: _ => (1 <= j)%nat
                 end).
  { pose proof (occurrences_lower_bound rest c 1) as H.
    destruct (Books.occurrencesFrom 1 rest c) as [| j l]; [exact I |].
    apply H. left. reflexivity. }
  destruct (Books.getFirstAlphabeticChar book) as [c' |].
  - simpl. destruct (Ascii.eqb_spec c' c) as [-> | Hne].
    + unfold Books.letterSet. rewrite Ascii.eqb_refl. simpl.
      destruct (Books.occurrencesFrom 1 rest c); reflexivity.
    + unfold Books.letterSet.
      destruct (Ascii.eqb_spec c c'); [congruence |]. simpl.
      destruct (Books.occurrencesFrom 1 rest c) as [| [| j] l];
        [reflexivity | lia | reflexivity].
  - simpl.
    destruct (Books.occurrencesFrom 1 rest c) as [| [| j] l];
      [reflexivity | lia | reflexivity].
Qed.

(** * Instances of the further properties *)

Lemma sampleEnv_ok : Nav.envOK sampleEnv.
Proof.
  intros book [<- | [<- | [<- | []]]].
  - exists 50. split; [reflexivity | lia].
  - exists 40. split; [reflexivity | lia].
  - exists 1. split; [reflexivity | lia].
Qed.

Lemma sampleEnv_inRange : Nav.inRange sampleEnv (appAt Nav.BOOKS 0 1).
Proof.
  exists "Genesis"%string, 50. repeat split; try reflexivity; simpl; lia.
Qed.

(** A tap at (100, 100) on a fresh handler, released at time 1000. *)
Lemma X2_single_tap_confirmed_after_delay_witness :
  fst (handleEnd (ev touchend 100 100) 1000
         (snd (handleStart (ev touchstart 100 100) appWorld)))
  = Normal (Some GTap).
Proof.
  refine (proj1 (X2_single_tap_confirmed_after_delay
                   (snd (handleStart (ev touchstart 100 100) appWorld))
                   (ev touchend 100 100) 1000 (fun _ => Normal JUndefined)
                   _ eq_refl eq_refl eq_refl eq_refl)).
  apply wf_idle. reflexivity.
Defined.

(** The 60 px drag of [draggingAfterTap], released at time 1200. *)
Lemma X3_long_drag_fires_onDrag_witness :
  let w := draggingAfterTap appSurface in
  let r := handleEnd (ev touchend 160 100) 1200 w in
  fst r = Normal (Some GDrag)
  /\ calls (snd r) = calls w ++ [CallDrag (- Z.sgn (160 - 100))]
  /\ state (snd r) = mkState 0 0 0 0 false false 1200 None
  /\ timers (snd r) = [].
Proof.
  refine (X3_long_drag_fires_onDrag
            (draggingAfterTap appSurface) (ev touchend 160 100) 1200
            (fun _ => Normal JUndefined) JUndefined
            _ eq_refl eq_refl _ eq_refl eq_refl).
  - unfold draggingAfterTap. apply wf_runOps. exact wf_tapPending.
  - vm_compute. reflexivity.
Defined.

(** A gesture that wandered 30 px down before coming back. *)
Lemma X4_moved_gesture_is_never_a_tap_witness :
  let w := runOps appWorld
             (OpStart (ev touchstart 0 0)
              :: map OpMove [ev touchmove 0 30; ev touchmove 0 0]) in
  nextTimerId (snd (handleEnd (ev touchend 0 0) 1000 w)) = nextTimerId appWorld.
Proof.
  refine (proj1 (proj2 (X4_moved_gesture_is_never_a_tap
                          appWorld (ev touchstart 0 0)
                          [ev touchmove 0 30; ev touchmove 0 0]
                          (ev touchend 0 0) 1000 _))).
  apply Exists_cons_hd. reflexivity.
Defined.

(** The end of the tap of [tapPending], then a duplicate end. *)
Lemma X5_end_is_final_until_next_start_witness :
  let w := snd (handleStart (ev touchstart 100 100) appWorld) in
  let w1 := snd (handleEnd (ev touchend 100 100) 1000 w) in
  handleEnd (ev mouseup 100 100) 1001 w1 = (Normal None, w1).
Proof.
  apply (proj1 (proj2 (X5_end_is_final_until_next_start
                         (snd (handleStart (ev touchstart 100 100) appWorld))
                         (ev touchend 100 100) 1000 (Some GTap)
                         (snd (handleEnd (ev touchend 100 100) 1000
                                 (snd (handleStart (ev touchstart 100 100) appWorld))))
                         eq_refl))).
Defined.

(** 45 one-pixel samples to the right: two swipes, 5 px left over. *)
Lemma X6_unit_steps_swipe_every_20px_witness :
  let w :=
    runOps appWorld
           (OpStart (ev touchstart 100 100)
            :: map (fun i => OpMove (ev touchmove (100 + 1 * Z.of_nat i) 100))
                   (seq 1 45)) in
  calls w = calls appWorld ++ repeat (CallSwipe (- (1))) (45 / 20)
  /\ accumulatedDistance (state w) = 1 * Z.of_nat (45 mod 20).
Proof.
  apply (X6_unit_steps_swipe_every_20px
           appWorld 100 100 1 (fun _ => Normal JUndefined) 45).
  - left. reflexivity.
  - reflexivity.
Defined.

(** The synthesized mousemove, mousedown, mouseup after a touch tap. *)
Lemma X7_synthetic_mouse_train_swallowed_witness :
  let w := snd (handleStart (ev touchstart 100 100) appWorld) in
  let w1 := snd (listener appSurface (ev touchend 100 100) 1000 w) in
  deliverAll appSurface w1
    (map (fun p => Dom (fst p) (snd p))
         [(ev mousemove 100 100, 1002); (ev mousedown 100 100, 1003);
          (ev mouseup 100 100, 1004)])
  = w1.
Proof.
  apply (X7_synthetic_mouse_train_swallowed
           appSurface (snd (handleStart (ev touchstart 100 100) appWorld))
           (ev touchend 100 100) 1000 false).
  - reflexivity.
  - reflexivity.
  - vm_compute. reflexivity.
  - constructor; [left; reflexivity |].
    constructor; [right; split; [left; reflexivity | simpl; lia] |].
    constructor; [right; split; [right; left; reflexivity | simpl; lia] |].
    constructor.
Defined.

(** From the first book: swipe forward, tap twice, drag, double-tap. *)
Lemma X8_gestures_keep_navigation_in_range_witness :
  Nav.inRange sampleEnv
    (Nav.replay sampleEnv
       [CallSwipe 1; CallTap 10; CallTap 10; CallDrag (-1); CallDoubleTap]
       (appAt Nav.BOOKS 0 1)).
Proof.
  exact (proj1 (X8_gestures_keep_navigation_in_range
                  sampleEnv (appAt Nav.BOOKS 0 1)
                  [CallSwipe 1; CallTap 10; CallTap 10; CallDrag (-1); CallDoubleTap]
                  sampleEnv_ok sampleEnv_inRange)).
Defined.

(** Five swipes forward from the second of three books stop at the last. *)
Lemma X9_swipes_stop_at_the_ends_witness :
  Nav.nav (Nav.replay sampleEnv (repeat (CallSwipe 1) 5) (appAt Nav.BOOKS 1 1))
  = Nav.mkNav Nav.BOOKS (Z.max 0 (Z.min (3 - 1) (1 + 1 * 5))) 1.
Proof.
  apply (X9_swipes_stop_at_the_ends sampleEnv 1 5 (appAt Nav.BOOKS 1 1)).
  - left. reflexivity.
  - reflexivity.
  - simpl. lia.
Defined.

(** A finger dragged 45 px to the right from the third book, a timer
    expiry being delivered after the start. *)
Lemma X10_dragging_over_the_book_list_witness :
  let ops :=
    OpStart (ev touchstart 100 100)
    :: OpTimer 1%positive 5000
    :: map (fun i => OpMove (ev touchmove (100 + 1 * Z.of_nat i) 100))
           (seq 1 45) in
  Nav.nav (Nav.replay sampleEnv (calls (runOps appWorld ops)) (appAt Nav.BOOKS 2 1))
  = Nav.mkNav Nav.BOOKS
      (Z.max 0 (Z.min (3 - 1) (2 - 1 * Z.of_nat (45 / 20)))) 1.
Proof.
  apply (X10_dragging_over_the_book_list
           sampleEnv (appAt Nav.BOOKS 2 1) appWorld 100 100 1
           (fun _ => Normal JUndefined) 45).
  - left. reflexivity.
  - reflexivity.
  - reflexivity.
  - reflexivity.
  - reflexivity.
  - reflexivity.
  - simpl. lia.
Defined.

(** A 60 px drag followed by a timer expiry, ended while reading
    Exodus 7. *)
Lemma X13_swipe_and_drag_never_both_act_witness :
  let w := runOps appWorld
             (OpStart (ev touchstart 100 100)
              :: [OpMove (ev touchmove 160 100); OpTimer 1%positive 5000]) in
  exists ds tail,
    calls (snd (handleEnd (ev touchend 160 100) 1200 w))
    = calls appWorld ++ map CallSwipe ds ++ tail
    /\ (tail = [] \/ exists dir, tail = [CallDrag dir])
    /\ Nav.replay sampleEnv (map CallSwipe ds ++ tail) (appAt Nav.READING 1 7)
       = match Nav.currentMode (Nav.nav (appAt Nav.READING 1 7)) with
         | Nav.READING => Nav.replay sampleEnv tail (appAt Nav.READING 1 7)
         | _ => Nav.replay sampleEnv (map CallSwipe ds) (appAt Nav.READING 1 7)
         end.
Proof.
  apply (X13_swipe_and_drag_never_both_act
           sampleEnv (appAt Nav.READING 1 7) appWorld
           (ev touchstart 100 100)
           [OpMove (ev touchmove 160 100); OpTimer 1%positive 5000]
           (ev touchend 160 100) 1200).
  - reflexivity.
  - repeat constructor.
  - reflexivity.
Defined.

(** Tap, then double-tap, in the chapter list of Exodus at chapter 7. *)
Lemma X11_double_tap_undoes_tap_witness :
  let a := appAt Nav.CHAPTERS 1 7 in
  let a1 := snd (Nav.handleTap sampleEnv 10 a) in
  let a2 := snd (Nav.handleDoubleTap a1) in
  Nav.currentMode (Nav.nav a1) = Nav.READING /\ Nav.nav a2 = Nav.nav a.
Proof.
  exact (X11_double_tap_undoes_tap
           sampleEnv 10 (appAt Nav.CHAPTERS 1 7) "Exodus"%string eq_refl).
Defined.

(** A tap at x = 10 of 400 while reading Exodus 1. *)
Lemma X12_reading_tap_left_right_witness :
  let r := Nav.handleTap sampleEnv 10 (appAt Nav.READING 1 1) in
  fst r = Normal tt
  /\ Nav.nav (snd r)
     = Nav.mkNav Nav.READING 1
         (if 2 * 10 <? 400 then Z.max 1 (1 - 1) else Z.min 40 (1 + 1)).
Proof.
  apply (X12_reading_tap_left_right
           sampleEnv 10 (appAt Nav.READING 1 1) "Exodus"%string 40).
  - reflexivity.
  - reflexivity.
  - reflexivity.
  - simpl. lia.
Defined.

(** Three subscribers of which the second throws. *)
Lemma X14_emit_isolates_exceptions_witness :
  let b := Bus.on "e" 3 (Bus.on "e" 2 (Bus.on "e" 1 Bus.newBus)) in
  let b' := Bus.emit (fun f _ => Nat.eqb f 2) "e" 7 b in
  Bus.invoked b' = Bus.invoked b ++ map (fun f => (f, 7)) [1; 2; 3]%nat
  /\ Bus.reported b'
     = Bus.reported b
       ++ map (fun _ => "e"%string)
              (filter (fun f => Nat.eqb f 2) [1; 2; 3]%nat)
  /\ Bus.events b' = Bus.events b.
Proof.
  apply (X14_emit_isolates_exceptions
           (fun f _ => Nat.eqb f 2) "e" 7
           (Bus.on "e" 3 (Bus.on "e" 2 (Bus.on "e" 1 Bus.newBus)))
           [1; 2; 3]%nat).
  reflexivity.
Defined.

(** A second function subscribed and unsubscribed again. *)
Lemma X15_on_and_unsubscribe_witness :
  let b := Bus.on "e" 1 Bus.newBus in
  let b2 := Bus.unsubscribe "e" (Bus.Plain 2) (Bus.on "e" 2 b) in
  Bus.events b2 "e"%string = Some [Bus.Plain 1]
  /\ Bus.unsubscribe "e" (Bus.Plain 2) b2 = b2.
Proof.
  refine (proj2 (proj2 (proj2 (proj2
            (X15_on_and_unsubscribe "e" 2 (Bus.on "e" 1 Bus.newBus))))) _).
  simpl. intros [H | []]. discriminate H.
Defined.

(** [sampleBus]: 2 is called once; 3 is skipped by the first emit. *)
Lemma X16_once_fires_once_and_skips_its_successor_witness :
  let b1 := Bus.emit (fun _ _ => false) "e" 7 sampleBus in
  let b2 := Bus.emit (fun _ _ => false) "e" 7 b1 in
  Bus.invoked b1
  = Bus.invoked sampleBus ++ map (fun g => (g, 7)) ([1] ++ 2 :: tl [3; 4])%nat
  /\ Bus.events b1 "e"%string = Some (map Bus.Plain ([1] ++ [3; 4])%nat)
  /\ Bus.invoked b2
     = Bus.invoked b1 ++ map (fun g => (g, 7)) ([1] ++ [3; 4])%nat.
Proof.
  apply (X16_once_fires_once_and_skips_its_successor
           (fun _ _ => false) "e" 7 sampleBus [1]%nat [3; 4]%nat 0%nat 2%nat).
  reflexivity.
Defined.

(** Removing the listeners of e from [sampleBus]. *)
Lemma X17_off_removes_listeners_witness :
  Bus.listenerCount "e" (Bus.off (Some "e"%string) sampleBus) = O.
Proof.
  refine (proj1 (X17_off_removes_listeners sampleBus "e" _)).
  discriminate.
Defined.
